(** * The heuristic extraction engine of footwearscrape (parse_universal.py)

    A shallow embedding of [src/parse_universal.py] and the properties of
    its price extractor, field locators, orchestrator and promotion
    scanner.

    Conventions of the embedding.
    - A Python [str] is a list of Unicode code points ([str := list N]),
      so [len] is [length] and slicing is [firstn].  White space is
      Python's on every text.  The other character classes ([\d], [\w],
      [isalpha], [isupper]) and the case mapping ([lower], [title],
      [re.IGNORECASE]) are Python's on texts of ASCII characters; for the
      code points above 127 Python takes them from the Unicode database,
      which is not embedded, and the definitions leave those code points
      caseless and outside the classes.  A statement that depends on them
      is made of ASCII texts ([is_ascii], [ascii_page]).
    - A price is the decimal the pattern captured, kept exactly as a number
      of cents ([price := Z]).  Python holds it as the nearest binary64
      float; on decimals with two fractional digits the order, equality,
      [min], [sort] and the [:.2f] rendering of those floats are the ones
      of the decimals themselves.  The discount is computed on the floats
      ([to_float], [discount]), with the kernel's binary64 arithmetic.
    - The bs4 tree is an inductive [node]; [find_all], [get_text] and tag
      equality follow bs4 (a tag equals another when name, attributes and
      contents agree).
    - [urllib.parse] is outside the repository: [urlparse] and [urljoin]
      are parameters, each may raise ([Raise]).
    - [print] calls are not modelled. *)

From Stdlib Require Import Floats.
From Stdlib Require Import Ascii String DecimalString.
From Stdlib Require Import List ZArith NArith Bool Lia.
From Stdlib Require Import Permutation Sorted.
Import ListNotations.

(* ================================================================= *)
(** ** Python strings *)

Module Py.

Definition char := N.
Bind Scope N_scope with char.
Definition str := list char.

(** A literal of the source, from its ASCII spelling. *)
Definition lit (x : string) : str :=
  map N_of_ascii (list_ascii_of_string x).

Fixpoint str_eqb (a b : str) : bool :=
  match a, b with
  | [], [] => true
  | x :: a', y :: b' => N.eqb x y && str_eqb a' b'
  | _, _ => false
  end.

(** [str.isspace] on one code point. *)
Definition is_space (c : char) : bool :=
  ((9 <=? c) && (c <=? 13) || (28 <=? c) && (c <=? 32)
   || (c =? 133) || (c =? 160) || (c =? 5760)
   || (8192 <=? c) && (c <=? 8202) || (c =? 8232) || (c =? 8233)
   || (c =? 8239) || (c =? 8287) || (c =? 12288))%N.

Definition is_digit (c : char) : bool := ((48 <=? c) && (c <=? 57))%N.
Definition is_upper (c : char) : bool := ((65 <=? c) && (c <=? 90))%N.
Definition is_lower (c : char) : bool := ((97 <=? c) && (c <=? 122))%N.
Definition is_alpha (c : char) : bool := is_upper c || is_lower c.
(** [\w]. *)
Definition is_word (c : char) : bool :=
  is_alpha c || is_digit c || (c =? 95)%N.

Definition to_lower (c : char) : char := if is_upper c then (c + 32)%N else c.
Definition to_upper (c : char) : char := if is_lower c then (c - 32)%N else c.

Definition lower (s : str) : str := map to_lower s.

(** [s.isupper()]: some cased character, none of them lower case. *)
Definition isupper (s : str) : bool :=
  existsb is_upper s && negb (existsb is_lower s).

(** [s.title()]. *)
Fixpoint title_from (prev_cased : bool) (s : str) : str :=
  match s with
  | [] => []
  | c :: s' =>
      if is_lower c then
        (if prev_cased then c else to_upper c) :: title_from true s'
      else if is_upper c then
        (if prev_cased then to_lower c else c) :: title_from true s'
      else c :: title_from false s'
  end.
Definition title (s : str) : str := title_from false s.

Fixpoint lstrip (s : str) : str :=
  match s with
  | c :: s' => if is_space c then lstrip s' else s
  | [] => []
  end.
Definition rstrip (s : str) : str := rev (lstrip (rev s)).
Definition strip (s : str) : str := rstrip (lstrip s).

(** [s.rstrip(chars)] for a one-character set. *)
Fixpoint lstrip_char (x : char) (s : str) : str :=
  match s with
  | c :: s' => if N.eqb c x then lstrip_char x s' else s
  | [] => []
  end.
Definition rstrip_char (x : char) (s : str) : str :=
  rev (lstrip_char x (rev s)).

Fixpoint startswith (s p : str) : bool :=
  match p, s with
  | [], _ => true
  | x :: p', c :: s' => N.eqb x c && startswith s' p'
  | _ :: _, [] => false
  end.

(** [sub in s]. *)
Fixpoint contains (sub s : str) : bool :=
  startswith s sub ||
  match s with
  | [] => false
  | _ :: s' => contains sub s'
  end.

(** [s.replace(old, new)], [old] not empty: left to right, no overlap. *)
Fixpoint replace_fuel (fuel : nat) (old new s : str) : str :=
  match fuel with
  | O => s
  | S fuel' =>
      match s with
      | [] => []
      | c :: s' =>
          if startswith s old
          then new ++ replace_fuel fuel' old new (skipn (length old) s)
          else c :: replace_fuel fuel' old new s'
      end
  end.
Definition replace (old new s : str) : str :=
  match old with
  | [] => s
  | _ => replace_fuel (length s) old new s
  end.

(** [s.split()]: maximal runs of characters that are not white space. *)
Fixpoint split_ws_from (cur : str) (s : str) : list str :=
  match s with
  | [] => match cur with [] => [] | _ => [rev cur] end
  | c :: s' =>
      if is_space c
      then match cur with
           | [] => split_ws_from [] s'
           | _ => rev cur :: split_ws_from [] s'
           end
      else split_ws_from (c :: cur) s'
  end.
Definition split_ws (s : str) : list str := split_ws_from [] s.

(** [s.split(sep)] for a one-character separator: empty fields are kept. *)
Fixpoint split_on_from (sep : char) (cur : str) (s : str) : list str :=
  match s with
  | [] => [rev cur]
  | c :: s' =>
      if N.eqb c sep
      then rev cur :: split_on_from sep [] s'
      else split_on_from sep (c :: cur) s'
  end.
Definition split_on (sep : char) (s : str) : list str :=
  split_on_from sep [] s.

(** [sep.join(parts)]. *)
Fixpoint join (sep : str) (parts : list str) : str :=
  match parts with
  | [] => []
  | [p] => p
  | p :: ps => p ++ sep ++ join sep ps
  end.

(** [x in xs] for a list (or set) of strings. *)
Definition mem (x : str) (xs : list str) : bool := existsb (str_eqb x) xs.

(** [any(k in s for k in keys)]. *)
Definition any_in (keys : list str) (s : str) : bool :=
  existsb (fun k => contains k s) keys.

(** Decimal digits of a natural number, as [str(n)] prints them. *)
Definition digits (n : N) : str :=
  lit (NilZero.string_of_uint (N.to_uint n)).

End Py.
Import Py.

(* ================================================================= *)
(** ** Regular expressions

    The fragment of Python's [re] the source uses, with the backtracking
    order of the [sre] engine: alternatives left to right, repetitions
    greedy.  None of the source's repetitions has a body that can match
    the empty string, and none of its [findall] patterns can. *)

Module Re.

Inductive regex : Type :=
| Eps
| Chr (c : char)                              (* a literal character *)
| Cls (p : char -> bool)                      (* a class: \d \s \w . [...] *)
| Seq (a b : regex)
| Alt (a b : regex)                           (* a|b *)
| Rep (r : regex) (lo : nat) (hi : option nat) (* r{lo,hi}, greedy *)
| Grp (r : regex)                             (* the capturing group *)
| Bol                                         (* ^ *)
| Wb.                                         (* \b *)

(** Where the engine stands: the character before, the text ahead, and
    what the group captured. *)
Record cursor : Type := Cursor {
  prev : option char;
  rest : str;
  grp : option str
}.

Definition at_word (c : option char) : bool :=
  match c with Some x => is_word x | None => false end.

Definition below (n : nat) (hi : option nat) : bool :=
  match hi with Some h => Nat.ltb n h | None => true end.

Section Engine.
(** [re.IGNORECASE] *)
Variable ci : bool.
Variable A : Type.

Definition chr_ok (c x : char) : bool :=
  if ci then N.eqb (to_lower c) (to_lower x) else N.eqb c x.

Fixpoint run (r : regex) (k : cursor -> option A) (cu : cursor)
  : option A :=
  match r with
  | Eps => k cu
  | Chr c =>
      match rest cu with
      | x :: s' => if chr_ok c x then k (Cursor (Some x) s' (grp cu)) else None
      | [] => None
      end
  | Cls p =>
      match rest cu with
      | x :: s' => if p x then k (Cursor (Some x) s' (grp cu)) else None
      | [] => None
      end
  | Seq a b => run a (run b k) cu
  | Alt a b =>
      match run a k cu with
      | Some x => Some x
      | None => run b k cu
      end
  | Rep r' lo hi =>
      (fix loop (fuel n : nat) (cu : cursor) {struct fuel} : option A :=
         match fuel with
         | O => None
         | S fuel' =>
             let again :=
               if below n hi
               then run r'
                      (fun cu' =>
                         if Nat.ltb (length (rest cu')) (length (rest cu))
                         then loop fuel' (S n) cu'
                         else None)
                      cu
               else None in
             match again with
             | Some x => Some x
             | None => if Nat.leb lo n then k cu else None
             end
         end) (S (length (rest cu))) O cu
  | Grp r' =>
      run r'
        (fun cu' =>
           k (Cursor (prev cu') (rest cu')
                (Some (firstn (length (rest cu) - length (rest cu'))
                         (rest cu)))))
        cu
  | Bol => match prev cu with None => k cu | Some _ => None end
  | Wb =>
      if xorb (at_word (prev cu)) (at_word (hd_error (rest cu)))
      then k cu else None
  end.
End Engine.
Arguments run ci {A} r k cu.

(** The first way [r] matches at the cursor, if any. *)
Definition exec (ci : bool) (r : regex) (cu : cursor) : option cursor :=
  run ci r (fun cu' => Some cu') cu.

(** [re.match(r, s)] as a truth value. *)
Definition matches (ci : bool) (r : regex) (s : str) : bool :=
  match exec ci r (Cursor None s None) with Some _ => true | None => false end.

Fixpoint search_from (ci : bool) (r : regex) (p : option char) (s : str)
  : bool :=
  match exec ci r (Cursor p s None) with
  | Some _ => true
  | None =>
      match s with
      | [] => false
      | c :: s' => search_from ci r (Some c) s'
      end
  end.

(** [re.search(r, s)] as a truth value. *)
Definition search (ci : bool) (r : regex) (s : str) : bool :=
  search_from ci r None s.

Fixpoint findall_from (fuel : nat) (ci : bool) (r : regex)
  (p : option char) (s : str) : list str :=
  match fuel with
  | O => []
  | S fuel' =>
      let step :=
        match s with
        | [] => []
        | c :: s' => findall_from fuel' ci r (Some c) s'
        end in
      match exec ci r (Cursor p s None) with
      | Some cu' =>
          let whole := firstn (length s - length (rest cu')) s in
          let item := match grp cu' with Some g => g | None => whole end in
          if Nat.ltb (length (rest cu')) (length s)
          then item :: findall_from fuel' ci r (prev cu') (rest cu')
          else item :: step
      | None => step
      end
  end.

(** [re.findall(r, s)]: the group of each match, left to right, without
    overlap (the whole match when the pattern has no group). *)
Definition findall (ci : bool) (r : regex) (s : str) : list str :=
  findall_from (S (length s)) ci r None s.

(** Pattern syntax. *)
Fixpoint cat (rs : list regex) : regex :=
  match rs with
  | [] => Eps
  | [r] => r
  | r :: rs' => Seq r (cat rs')
  end.
Definition word (s : string) : regex := cat (map Chr (lit s)).
Definition star (r : regex) : regex := Rep r 0 None.
Definition plus (r : regex) : regex := Rep r 1 None.
Definition opt (r : regex) : regex := Rep r 0 (Some 1).
Definition exactly (n : nat) (r : regex) : regex := Rep r n (Some n).
Definition digit : regex := Cls is_digit.
Definition space : regex := Cls is_space.
Definition dot : regex := Cls (fun c => negb (N.eqb c 10)).

End Re.

Import Re.

(* ================================================================= *)
(** ** Prices and the price extractor *)

(** A price in cents. *)
Definition price := Z.
Bind Scope Z_scope with price.

(** The currency literals as the source file spells them.  The file holds
    the euro and pound signs as the code points U+00E2 U+201A U+00AC and
    U+00C2 U+00A3 (a UTF-8 file read as cp1252 and saved again), and these
    are the strings Python sees. *)
Definition sym_dollar : str := lit "$".
Definition sym_euro : str := [226; 8218; 172]%N.
Definition sym_pound : str := [194; 163]%N.

(** The real signs U+20AC and U+00A3, as a page spells them. *)
Definition euro_sign : char := 8364%N.
Definition pound_sign : char := 163%N.

Fixpoint digits_value (acc : Z) (s : str) : option Z :=
  match s with
  | [] => Some acc
  | c :: s' =>
      if is_digit c
      then digits_value (10 * acc + Z.of_N (c - 48)) s'
      else None
  end.

(** [float(s)] on what the price patterns capture once the separators are
    removed: digits, or digits with two fractional digits.  [None] is the
    [ValueError] the source catches. *)
Definition float (s : str) : option price :=
  match split_on 46 s with
  | [ip] =>
      match ip with
      | [] => None
      | _ => option_map (fun v => 100 * v)%Z (digits_value 0 ip)
      end
  | [ip; fp] =>
      match ip, length fp with
      | _ :: _, 2%nat =>
          match digits_value 0 ip, digits_value 0 fp with
          | Some v, Some f => Some (100 * v + f)%Z
          | _, _ => None
          end
      | _, _ => None
      end
  | _ => None
  end.

(** [match.replace(',', '').replace(' ', '')] *)
Definition clean (m : str) : str :=
  replace (lit " ") [] (replace (lit ",") [] m).

Definition skip_indicators : list str :=
  map lit ["off"; "save"; "discount"; "free"; "shipping"; "member";
           "employee"; "review"; "rating"; "star"; "sold"; "available";
           "stock"; "color"; "size"; "width"; "length"; "style"]%string.

(** [\d{1,4}(?:,\d{3})*] and [\.\d{2}] *)
Definition amount : regex :=
  Seq (Rep digit 1 (Some 4)) (star (Seq (Chr 44) (exactly 3 digit))).
Definition cents : regex := Seq (Chr 46) (exactly 2 digit).

Definition price_patterns : list regex :=
  [ cat [word "$"; star space; Grp (Seq amount cents)];
    cat [word "$"; star space; Grp amount];
    cat [Grp (Seq amount cents); star space; word "$"];
    cat [cat (map Chr sym_euro); star space; Grp (Seq amount (opt cents))];
    cat [cat (map Chr sym_pound); star space; Grp (Seq amount (opt cents))];
    cat [Grp (Seq amount cents); star space; word "USD"] ].

(** [5 <= price <= 2000] *)
Definition in_range (p : price) : bool :=
  ((500 <=? p) && (p <=? 200000))%Z.

(** The inner loop: the first match whose value is in range. *)
Fixpoint first_in_range (ms : list str) : option price :=
  match ms with
  | [] => None
  | m :: ms' =>
      match float (clean m) with
      | Some p => if in_range p then Some p else first_in_range ms'
      | None => first_in_range ms'
      end
  end.

(** The outer loop over the patterns. *)
Fixpoint try_patterns (ps : list regex) (text : str) : option price :=
  match ps with
  | [] => None
  | p :: ps' =>
      match first_in_range (findall false p text) with
      | Some v => Some v
      | None => try_patterns ps' text
      end
  end.

Definition extract_price_bulletproof (text : str) : option price :=
  match text with
  | [] => None
  | _ =>
      let text := strip text in
      let text_lower := lower text in
      if contains (lit "%") text && negb (contains sym_dollar text) then None
      else if any_in skip_indicators text_lower
              && negb (existsb (fun symbol => contains symbol text)
                         [sym_dollar; sym_euro; sym_pound])
      then None
      else try_patterns price_patterns text
  end.

(** The in-range values one pattern finds in a text, in match order. *)
Definition values_in_range (p : regex) (text : str) : list price :=
  flat_map
    (fun m =>
       match float (clean m) with
       | Some v => if in_range v then [v] else []
       | None => []
       end)
    (findall false p text).

(** ** The promotional-text filter *)

Definition promo_regexes : list regex :=
  [ cat [word "$"; plus digit; star space; word "off"];
    cat [plus digit; star space; word "off"];
    cat [word "save"; star space; opt (word "$"); plus digit];
    cat [word "extra"; star space; opt (word "$"); plus digit];
    cat [word "limited"; star space; word "time"];
    cat [word "discount"; star space; opt (word "$"); plus digit];
    cat [word "member"; star space; opt (word "$"); plus digit];
    cat [word "get"; star space; opt (word "$"); plus digit; star space;
         word "off"] ].

Definition is_promotional_text (text : str) : bool :=
  match text with
  | [] => false
  | _ =>
      let text_lower := strip (lower text) in
      existsb (fun pattern => search false pattern text_lower) promo_regexes
  end.

(** ** The discount *)

(** Python truth of a float that may be [None]. *)
Definition truthy (p : option price) : bool :=
  match p with Some v => negb (v =? 0)%Z | None => false end.

(** [num/den] rounded to the nearest integer, ties to even. *)
Definition round_half_even (num den : Z) : Z :=
  let q := (num / den)%Z in
  let r := (num mod den)%Z in
  if (2 * r <? den)%Z then q
  else if (den <? 2 * r)%Z then (q + 1)%Z
  else if Z.even q then q else (q + 1)%Z.

(** The binary64 number nearest to [p/q], ties to even, for positive [p]
    and [q]: the quotient is taken with at least 64 bits and a sticky
    bit, and rounded once. *)
Definition nearest_float (p q : Z) : PrimFloat.float :=
  let k := Z.max 0 (64 + Z.log2 q - Z.log2 p) in
  let n := (p * 2 ^ k / q)%Z in
  let sticky := if ((p * 2 ^ k) mod q =? 0)%Z then 0%Z else 1%Z in
  SF2Prim (binary_normalize prec emax (2 * n + sticky) (- k - 1) false).

(** The float Python holds for a price: [float(s)] gives the binary64
    number nearest to the decimal. *)
Definition to_float (p : price) : PrimFloat.float :=
  match p with
  | Z0 => 0%float
  | Zpos _ => nearest_float p 100
  | Zneg _ => (- nearest_float (- p) 100)%float
  end.

(** [(original - sale) / original * 100], in binary64 as Python computes
    it. *)
Definition discount (original sale : price) : PrimFloat.float :=
  ((to_float original - to_float sale) / to_float original * 100)%float.

(** The digits of [tenths/10] with one fractional digit. *)
Definition one_decimal (tenths : Z) : str :=
  digits (Z.to_N (tenths / 10)) ++ lit "." ++ digits (Z.to_N (tenths mod 10)).

(** [f"{x:.1f}"]: the decimal with one fractional digit nearest to the
    exact value of the float, ties to even, with the sign of the float. *)
Definition fmt_1f (x : PrimFloat.float) : str :=
  match Prim2SF x with
  | S754_nan => lit "nan"
  | S754_infinity s => if s then lit "-inf" else lit "inf"
  | S754_zero s => (if s then lit "-" else []) ++ one_decimal 0
  | S754_finite s m e =>
      (if s then lit "-" else [])
      ++ one_decimal
           (if (0 <=? e)%Z then (10 * Zpos m * 2 ^ e)%Z
            else round_half_even (10 * Zpos m) (2 ^ (- e)))
  end.

(** [f"{discount:.1f}%"], and [f"${x:.2f}"] for a price. *)
Definition fmt_percent (x : PrimFloat.float) : str := fmt_1f x ++ lit "%".
Definition two_digits (n : Z) : str :=
  digits (Z.to_N (n / 10)) ++ digits (Z.to_N (n mod 10)).
Definition fmt_price (p : price) : str :=
  lit "$" ++ digits (Z.to_N (p / 100)) ++ lit "." ++ two_digits (p mod 100).

Definition NA : str := lit "N/A".

Definition calculate_discount (original sale : option price) : str :=
  match original, sale with
  | Some o, Some s =>
      if truthy original && truthy sale && (s <? o)%Z && (0 <? s)%Z
      then fmt_percent (discount o s)
      else NA
  | _, _ => NA
  end.

(* ================================================================= *)
(** ** The name validators *)

Definition price_text_indicators : list str :=
  map lit ["original price:"; "sale price:"; "regular price:"; "was:";
           "now:"; "price:"]%string.

Definition stripped_chars : list str :=
  [sym_dollar; sym_euro; sym_pound]
  ++ map lit [","; "."; ":"; "-"; "0"; "1"; "2"; "3"; "4"; "5"; "6"; "7";
              "8"; "9"]%string.

Definition price_words : list str :=
  map lit ["original"; "price"; "sale"; "was"; "now"; "regular"; "save";
           "off"]%string.

Definition is_invalid_product_name (product_name : str) : bool :=
  match product_name with
  | [] => true
  | _ =>
      let name_lower := strip (lower product_name) in
      if existsb (startswith name_lower) price_text_indicators then true
      else if startswith (strip product_name) sym_dollar then true
      else
        let name_stripped :=
          fold_left (fun acc char => replace char (lit " ") acc)
            stripped_chars name_lower in
        let words :=
          filter (fun w => Nat.ltb 2 (length w)) (split_ws name_stripped) in
        let price_word_count :=
          length (filter (fun w => mem w price_words) words) in
        (* price_word_count / len(words) > 0.6 *)
        if negb (Nat.eqb (length words) 0)
           && Nat.ltb (6 * length words) (10 * price_word_count)
        then true
        else
          let alpha_chars := length (filter is_alpha product_name) in
          let total_chars := length product_name in
          (* alpha_chars / total_chars < 0.3 *)
          Nat.ltb 0 total_chars && Nat.ltb (10 * alpha_chars) (3 * total_chars)
  end.

Definition exclude_keywords : list str :=
  map lit ["gift"; "gift card"; "giftcard"; "gift certificate";
           "e-gift"; "egift"; "gift voucher"; "store credit";
           "shopping card"; "prepaid card"; "digital gift"; "gift pack";
           "care kit"; "cleaning kit"; "laces only"; "insole only";
           "accessory kit"; "water repellent"; "shoe cleaner";
           "protective spray"; "subscription"; "membership"]%string.

Definition navigation_keywords : list str :=
  map lit ["sign in"; "sign up"; "log in"; "login"; "register";
           "create account"; "my account"; "account"; "cart"; "checkout";
           "wishlist"; "favorites"; "did you mean"; "search results";
           "filter by"; "sort by"; "product type"; "category"; "breadcrumb";
           "menu"; "navigation"; "back to"; "view all"; "shop now";
           "learn more"; "find out"; "discover"; "explore";
           "add a promotion"; "add promotion"; "add discount";
           "promo code"; "coupon code"; "subscribe"; "newsletter";
           "email signup"; "gifts by price"; "gifts under"; "price range";
           "shop by price"; "$85 and up"; "$75+"; "sale items";
           "clearance items"; "new arrivals"; "best sellers"; "top rated";
           "customer service"; "help center"; "contact us";
           "store locator"; "find a store";
           "keep up with"; "follow us"; "stay connected"; "join us";
           "connect with"; "social media"; "follow along"]%string.

Definition promo_patterns : list str :=
  map lit ["free"; "save"; "off"; "discount"; "promotion"; "offer";
           "deal"; "special"; "sale"; "clearance"; "collection"]%string.

Definition promotional_exact : list str :=
  map lit ["keep up with us"; "20% off boots"; "30% off boots";
           "40% off boots"; "50% off boots"; "x collection"]%string.

Definition shoe_words : list str :=
  map lit ["boot"; "shoe"; "sneaker"; "sandal"; "slipper"; "clog"]%string.

Definition footwear_indicators : list str :=
  map lit ["boot"; "shoe"; "sneaker"; "sandal"; "slipper"; "oxford";
           "loafer"; "clog"; "runner"; "trainer"; "heel"; "wedge";
           "moccasin"]%string.

Definition caps_words : list str :=
  map lit ["boot"; "shoe"; "sneaker"; "work"; "steel"; "toe"]%string.

Definition question_patterns : list str :=
  map lit ["?"; "did you"; "do you"; "how to"; "why"; "what is"; "sign up";
           "click here"]%string.

(** [\d+%\s*off] and [^\d+%?\s+off\s+\w+] *)
Definition percent_off_re : regex :=
  cat [plus digit; word "%"; star space; word "off"].
Definition leading_off_re : regex :=
  cat [Bol; plus digit; opt (word "%"); plus space; word "off"; plus space;
       plus (Cls is_word)].

Definition is_non_footwear_item (product_name : str) : bool :=
  match product_name with
  | [] => false
  | _ =>
      let name_lower := lower product_name in
      let word_count := length (split_ws product_name) in
      if any_in promotional_exact name_lower then true
      else if contains (lit " x ") name_lower
              && contains (lit "collection") name_lower then true
      else if search false percent_off_re name_lower then true
      else if matches false leading_off_re name_lower then true
      else if Nat.leb word_count 8
              && any_in promo_patterns name_lower
              && (negb (any_in shoe_words name_lower)
                  || search false percent_off_re name_lower) then true
      else if any_in (exclude_keywords ++ navigation_keywords) name_lower
      then true
      else if Nat.ltb (length (strip product_name)) 8 then true
      else if Nat.leb word_count 3
              && negb (any_in footwear_indicators name_lower) then true
      else if isupper product_name && Nat.leb word_count 6
              && negb (any_in caps_words name_lower) then true
      else any_in question_patterns name_lower
  end.

(* ================================================================= *)
(** ** The document tree (bs4) *)

Module Bs4.

(** A [NavigableString] or a [Tag].  Attribute names are unique within a
    tag (bs4 keeps them in a dict); a value is kept as the text the page
    has, and read as a list of tokens where bs4 holds a list ([class]). *)
#[warnings="-register-all"]
Inductive node : Type :=
| Text (s : str)
| Tag (name : str) (attrs : list (str * str)) (contents : list node).

Definition name (n : node) : str :=
  match n with Tag nm _ _ => nm | Text _ => [] end.
Definition attrs (n : node) : list (str * str) :=
  match n with Tag _ a _ => a | Text _ => [] end.
Definition contents (n : node) : list node :=
  match n with Tag _ _ c => c | Text _ => [] end.

Fixpoint lookup (k : str) (a : list (str * str)) : option str :=
  match a with
  | [] => None
  | (k', v) :: a' => if str_eqb k k' then Some v else lookup k a'
  end.

(** [tag.get(k)] and [tag.get(k, '')] for an attribute held as text. *)
Definition get (n : node) (k : string) : option str := lookup (lit k) (attrs n).
Definition get_or_empty (n : node) (k : string) : str :=
  match get n k with Some v => v | None => [] end.
Definition has_attr (n : node) (k : string) : bool :=
  match get n k with Some _ => true | None => false end.

(** [tag.get('class', [])] *)
Definition get_class (n : node) : list str :=
  match get n "class" with Some v => split_ws v | None => [] end.

(** The attributes bs4's HTML builders keep as lists of tokens. *)
Definition multi_valued (tag attr : str) : bool :=
  mem attr (map lit ["class"; "accesskey"; "dropzone"]%string)
  || mem tag (map lit ["a"; "link"]%string)
     && mem attr (map lit ["rel"; "rev"]%string)
  || mem tag (map lit ["td"; "th"]%string) && str_eqb attr (lit "headers")
  || str_eqb tag (lit "form") && str_eqb attr (lit "accept-charset")
  || str_eqb tag (lit "object") && str_eqb attr (lit "archive")
  || str_eqb tag (lit "area") && str_eqb attr (lit "rel")
  || str_eqb tag (lit "icon") && str_eqb attr (lit "sizes")
  || str_eqb tag (lit "iframe") && str_eqb attr (lit "sandbox")
  || str_eqb tag (lit "output") && str_eqb attr (lit "for").

Fixpoint strs_eqb (a b : list str) : bool :=
  match a, b with
  | [], [] => true
  | x :: a', y :: b' => str_eqb x y && strs_eqb a' b'
  | _, _ => false
  end.

Definition value_eqb (tag k v w : str) : bool :=
  if multi_valued tag k then strs_eqb (split_ws v) (split_ws w)
  else str_eqb v w.

(** Equality of two attribute dicts. *)
Definition attrs_eqb (tag : str) (a b : list (str * str)) : bool :=
  Nat.eqb (length a) (length b)
  && forallb (fun kv =>
                match lookup (fst kv) b with
                | Some w => value_eqb tag (fst kv) (snd kv) w
                | None => false
                end) a.

(** [Tag.__eq__]: same name, same attributes, equal contents. *)
Fixpoint node_eqb (a b : node) : bool :=
  match a, b with
  | Text s, Text t => str_eqb s t
  | Tag n aa cs, Tag m bb ds =>
      str_eqb n m && attrs_eqb n aa bb
      && (fix all2 (l1 l2 : list node) {struct l1} : bool :=
            match l1, l2 with
            | [], [] => true
            | x :: l1', y :: l2' => node_eqb x y && all2 l1' l2'
            | _, _ => false
            end) cs ds
  | _, _ => false
  end.

(** A tag found in the tree, with its [.parent]. *)
Record element : Type := Element { self : node; parent : node }.

(** [x in xs] for tags. *)
Definition elem_in (x : node) (xs : list element) : bool :=
  existsb (fun e => node_eqb x (self e)) xs.

(** The tags strictly below [p], in document order. *)
Fixpoint descendants (p : node) : list element :=
  match p with
  | Text _ => []
  | Tag _ _ cs =>
      (fix go (l : list node) : list element :=
         match l with
         | [] => []
         | c :: l' =>
             match c with
             | Text _ => go l'
             | Tag _ _ _ => Element c p :: descendants c ++ go l'
             end
         end) cs
  end.

(** The strings below [p], in document order. *)
Fixpoint all_strings (p : node) : list str :=
  match p with
  | Text s => [s]
  | Tag _ _ cs =>
      (fix go (l : list node) : list str :=
         match l with
         | [] => []
         | c :: l' => all_strings c ++ go l'
         end) cs
  end.

(** [tag.get_text()], [tag.get_text(strip=True)] and
    [tag.get_text(separator=' ', strip=True)] *)
Definition get_text (n : node) : str := concat (all_strings n).
Definition stripped_strings (n : node) : list str :=
  filter (fun s => negb (Nat.eqb (length s) 0)) (map strip (all_strings n)).
Definition get_text_strip (n : node) : str := concat (stripped_strings n).
Definition get_text_sep_strip (n : node) : str :=
  join (lit " ") (stripped_strings n).

(** [tag.find_all(...)] with the filter given as a predicate. *)
Definition find_all (p : node -> bool) (n : node) : list element :=
  filter (fun e => p (self e)) (descendants n).

Definition named (nm : string) (n : node) : bool := str_eqb (name n) (lit nm).
Definition named_in (nms : list string) (n : node) : bool :=
  mem (name n) (map lit nms).

(** [class_=re.compile(r, re.I)]: some token of the class matches, or the
    tokens joined by a space do. *)
Definition class_matches (r : regex) (n : node) : bool :=
  match get n "class" with
  | None => false
  | Some v =>
      existsb (search true r) (split_ws v)
      || search true r (join (lit " ") (split_ws v))
  end.

(** [style=re.compile(r, re.I)] *)
Definition style_matches (r : regex) (n : node) : bool :=
  match get n "style" with
  | None => false
  | Some v => search true r v
  end.

(** [find_all('a', href=True)] *)
Definition anchors (n : node) : list element :=
  find_all (fun x => named "a" x && has_attr x "href") n.

(** The [BeautifulSoup] object of a page with the given top-level nodes. *)
Definition soup (top : list node) : node := Tag (lit "[document]") [] top.

End Bs4.
Import Bs4.

(* ================================================================= *)
(** ** The container scorer and the field locators *)

Definition eligible_tags : list string :=
  ["div"; "article"; "li"; "section"; "a"]%string.

Definition product_keywords : list str :=
  map lit ["product"; "item"; "card"; "tile"]%string.

(** ['$' in text or ... or 'USD' in text] *)
Definition has_currency (text : str) : bool :=
  contains sym_dollar text || contains sym_euro text
  || contains sym_pound text || contains (lit "USD") text.

Definition score_as_product_container (element : node) : nat :=
  match name element with
  | [] => 0
  | _ =>
      if negb (named_in eligible_tags element) then 0
      else
        let classes := lower (join (lit " ") (get_class element)) in
        let elem_id := lower (get_or_empty element "id") in
        let data_attrs :=
          join (lit " ")
            (map (fun kv => lower (snd kv))
               (filter (fun kv => startswith (fst kv) (lit "data-"))
                  (attrs element))) in
        let score :=
          fold_left
            (fun score keyword =>
               score
               + (if contains keyword classes then 3 else 0)
               + (if contains keyword elem_id then 2 else 0)
               + (if contains keyword data_attrs then 2 else 0))
            product_keywords 0 in
        let score :=
          score + (match anchors element with [] => 0 | _ :: _ => 2 end) in
        let score :=
          score
          + (match find_all (named "img") element with
             | [] => 0 | _ :: _ => 1 end) in
        let text := get_text element in
        let score := score + (if has_currency text then 3 else 0) in
        score + (if Nat.ltb 5 (length (strip text)) then 1 else 0)
  end.

(** [lo <= len(text) <= hi] *)
Definition len_between (lo hi : nat) (text : str) : bool :=
  Nat.leb lo (length text) && Nat.leb (length text) hi.

(** The first element whose stripped text passes [ok]. *)
Fixpoint first_text (ok : str -> bool) (elements : list element)
  : option str :=
  match elements with
  | [] => None
  | elem :: rest =>
      let text := get_text_strip (self elem) in
      if ok text then Some text else first_text ok rest
  end.

(** The first strategy, in order, that returns a name. *)
Fixpoint first_of (A : Type) (tries : list (option A)) : option A :=
  match tries with
  | [] => None
  | Some x :: _ => Some x
  | None :: rest => first_of A rest
  end.
Arguments first_of {A} tries.

(** [product.*name|item.*name|card.*title] and [product.*title|item.*title] *)
Definition name_selectors : list regex :=
  [ Alt (cat [word "product"; star dot; word "name"])
      (Alt (cat [word "item"; star dot; word "name"])
         (cat [word "card"; star dot; word "title"]));
    Alt (cat [word "product"; star dot; word "title"])
      (cat [word "item"; star dot; word "title"]) ].

Definition find_product_name (container : node) : option str :=
  first_of
    ( (* Strategy 1: product name classes *)
      map (fun selector =>
             first_text (len_between 10 250)
               (find_all (class_matches selector) container))
        name_selectors
      (* Strategy 2: header tags *)
      ++ map (fun tag =>
                first_text
                  (fun text =>
                     len_between 10 250 text
                     && negb (any_in (map lit ["cart"; "menu"; "sign in";
                                               "account"]%string)
                                (lower text)))
                  (find_all (named tag) container))
           ["h1"; "h2"; "h3"; "h4"; "h5"]%string
      (* Strategy 3: links with substantial text *)
      ++ [ first_text
             (fun text =>
                len_between 10 250 text
                && negb (any_in (map lit ["view"; "shop"; "cart";
                                          "wishlist"]%string)
                           (lower text)))
             (anchors container) ]
      (* Strategy 4: any substantial text in spans/divs *)
      ++ map (fun tag =>
                first_text
                  (fun text =>
                     len_between 15 200 text
                     && search false (Rep (Cls is_alpha) 3 None) text)
                  (find_all (named tag) container))
           ["span"; "div"; "p"]%string ).

(** What a call gives: a value, or an exception. *)
Inductive result (A : Type) : Type :=
| Ok (a : A)
| Raise.
Arguments Ok {A} a.
Arguments Raise {A}.

Definition link_skip_words : list str :=
  map lit ["cart"; "checkout"; "account"; "login"; "javascript:"; "#"]%string.

Definition link_markers : list str :=
  map lit ["/product/"; "/p/"; "/item/"; "/dp/"; ".html"; "-shoe"; "-boot";
           "-sneaker"; "/men/"; "/women/"]%string.

(** One turn of the scoring loop over the anchors: the state is
    [(best_link, best_score)]. *)
Definition link_step (best : option str * nat) (link : element)
  : option str * nat :=
  let href := get_or_empty (self link) "href" in
  let text := get_text_strip (self link) in
  if any_in link_skip_words (lower href) then best
  else
    let score :=
      (if any_in link_markers (lower href) then 3 else 0)
      + (if len_between 5 200 text then 1 else 0) in
    if Nat.ltb (snd best) score then (Some href, score) else best.

Definition best_link (links : list element) : option str :=
  fst (fold_left link_step links (None, 0)).

Section Locators.
(** [urllib.parse.urljoin] *)
Variable urljoin : str -> str -> result str.

Definition find_product_link (container : node) (base_url : str)
  : result (option str) :=
  let links := anchors container in
  match best_link links with
  | Some ((_ :: _) as href) =>
      match urljoin base_url href with
      | Ok u => Ok (Some u)
      | Raise => Raise
      end
  | _ =>
      match links with
      | first :: _ =>
          match urljoin base_url (get_or_empty (self first) "href") with
          | Ok u => Ok (Some u)
          | Raise => Raise
          end
      | [] => Ok None
      end
  end.
End Locators.

(* ================================================================= *)
(** ** The price-pair locator *)

Definition strike_tags : list string := ["del"; "s"; "strike"]%string.

Definition strikethrough_classes : list string :=
  ["strike"; "strikethrough"; "was-price"; "original-price";
   "regular-price"; "compare-at"; "msrp"; "list-price"]%string.

Definition price_classes : list string :=
  ["price"; "cost"; "amount"; "pricing"; "sale"; "current"; "now"]%string.

(** STEP 1: the elements that carry a strikethrough signal. *)
Definition strikethrough_elements (container : node) : list element :=
  find_all (named_in strike_tags) container
  ++ find_all (style_matches (word "line-through")) container
  ++ flat_map (fun cls => find_all (class_matches (word cls)) container)
       strikethrough_classes.

(** The first of them whose text yields a price. *)
Fixpoint first_price (elements : list element) : option price :=
  match elements with
  | [] => None
  | elem :: rest =>
      let price := extract_price_bulletproof (get_text (self elem)) in
      if truthy price then price else first_price rest
  end.

Definition strike_price (container : node) : option price :=
  first_price (strikethrough_elements container).

(** STEP 2: the elements that may carry one of the other prices. *)
Definition currency_tags : list string :=
  ["span"; "div"; "p"; "strong"; "b"]%string.

Definition price_elements (container : node) : list element :=
  let by_attribute :=
    flat_map (fun cls => find_all (class_matches (word cls)) container)
      price_classes
    ++ find_all (fun n => has_attr n "data-price") container
    ++ find_all (fun n => has_attr n "data-product-price") container
    ++ find_all (fun n => has_attr n "data-test-price") container in
  fold_left
    (fun price_elements elem =>
       let text := get_text_strip (self elem) in
       if is_promotional_text text then price_elements
       else if has_currency text && Nat.ltb (length text) 100
               && negb (elem_in (self elem) price_elements)
       then price_elements ++ [elem]
       else price_elements)
    (flat_map (fun tag => find_all (named tag) container) currency_tags)
    by_attribute.

(** [price in all_prices] *)
Definition price_in (p : price) (ps : list price) : bool :=
  existsb (Z.eqb p) ps.

(** One turn of the extraction loop over [price_elements]. *)
Definition price_step (strikethrough : list element) (all_prices : list price)
  (elem : element) : list price :=
  if elem_in (self elem) strikethrough then all_prices
  else if elem_in (parent elem) strikethrough then all_prices
  else if named_in strike_tags (self elem) then all_prices
  else if contains (lit "line-through") (lower (get_or_empty (self elem) "style"))
  then all_prices
  else
    let elem_text := get_text_strip (self elem) in
    if is_promotional_text elem_text then all_prices
    else
      match extract_price_bulletproof elem_text with
      | Some p =>
          if negb (p =? 0)%Z && negb (price_in p all_prices)
          then all_prices ++ [p]
          else all_prices
      | None => all_prices
      end.

Definition other_prices (container : node) : list price :=
  fold_left (price_step (strikethrough_elements container))
    (price_elements container) [].

(** What the extraction loop keeps true of [all_prices]. *)
Definition prices_ok (ps : list price) : Prop :=
  NoDup ps /\ Forall (fun p => in_range p = true) ps.

(** [min(xs)] of a list that is not empty, [xs.sort()], [xs[-1]]. *)
Fixpoint list_min (x : price) (xs : list price) : price :=
  match xs with
  | [] => x
  | y :: ys => list_min (if (y <? x)%Z then y else x) ys
  end.

Fixpoint insert_price (x : price) (xs : list price) : list price :=
  match xs with
  | [] => [x]
  | y :: ys => if (x <? y)%Z then x :: y :: ys else y :: insert_price x ys
  end.
Definition sort_prices (xs : list price) : list price :=
  fold_left (fun acc x => insert_price x acc) xs [].

(** STEP 3: the pair [(original_price, sale_price)]. *)
Definition resolve_prices (strike : option price) (all_prices : list price)
  : option price * option price :=
  if truthy strike then
    match all_prices with
    | p :: ps => (strike, Some (list_min p ps))
    | [] => (None, strike)
    end
  else
    match all_prices with
    | _ :: _ :: _ =>
        let sorted := sort_prices all_prices in
        (Some (last sorted 0%Z), Some (hd 0%Z sorted))
    | [only] => (None, Some only)
    | [] => (None, None)
    end.

Definition find_prices_bulletproof (container : node)
  : option price * option price :=
  resolve_prices (strike_price container) (other_prices container).

(* ================================================================= *)
(** ** The site promotion scanner *)

(** [a < b] on strings, as Python compares them. *)
Fixpoint str_ltb (a b : str) : bool :=
  match a, b with
  | _, [] => false
  | [], _ :: _ => true
  | x :: a', y :: b' =>
      if (x <? y)%N then true
      else if (y <? x)%N then false
      else str_ltb a' b'
  end.

(** The distinct elements of [xs].  The source iterates [set(xs)], whose
    order Python leaves open; the model takes the order of first
    occurrence. *)
Fixpoint distinct (xs : list str) : list str :=
  match xs with
  | [] => []
  | x :: xs' => x :: filter (fun y => negb (str_eqb x y)) (distinct xs')
  end.

Fixpoint insert_desc (x : str) (xs : list str) : list str :=
  match xs with
  | [] => [x]
  | y :: ys => if str_ltb x y then y :: insert_desc x ys else x :: y :: ys
  end.
(** [sorted(xs, reverse=True)] on strings. *)
Definition sorted_desc (xs : list str) : list str :=
  fold_right insert_desc [] xs.

(** [free\s+shipping[^.!?\n]{0,50}\$\s*(\d+)], [(\d+)%\s*off],
    [\bclearance\b] and [select\s+styles], all with [re.IGNORECASE] *)
Definition free_ship_pattern : regex :=
  cat [word "free"; plus space; word "shipping";
       Rep (Cls (fun c => negb (mem [c] (map lit ["."; "!"; "?"]%string)
                                || N.eqb c 10)))
         0 (Some 50);
       word "$"; star space; Grp (plus digit)].
Definition percent_pattern : regex :=
  cat [Grp (plus digit); word "%"; star space; word "off"].
Definition clearance_pattern : regex := cat [Wb; word "clearance"; Wb].
Definition select_styles_pattern : regex :=
  cat [word "select"; plus space; word "styles"].

Definition extract_site_promotions (html_content : str) : list str :=
  let promotions :=
    map (fun amount => lit "Free Shipping: $" ++ amount ++ lit "+")
      (distinct (findall true free_ship_pattern html_content)) in
  let promotions :=
    promotions
    ++ map (fun percent => percent ++ lit "% Off")
         (firstn 3
            (sorted_desc (distinct (findall true percent_pattern html_content))))
  in
  let promotions :=
    promotions
    ++ (if search true clearance_pattern html_content
        then [lit "Clearance Available"] else []) in
  let promotions :=
    promotions
    ++ (if search true select_styles_pattern html_content
        then [lit "Sale on Select Styles"] else []) in
  firstn 10 promotions.

(* ================================================================= *)
(** ** The extraction orchestrator *)

(** One row of the output: the dict the source builds. *)
Record product : Type := Product {
  Product_Name : str;
  Product_URL : str;
  Original_Price : str;
  Sale_Price : str;
  Discount : str;
  Brand : str;
  Category : str
}.

(** What [urlparse] returns, as far as the source reads it. *)
Record url_parts : Type := UrlParts { scheme : str; netloc : str }.

(** [f"${p:.2f}" if p else 'N/A'] *)
Definition price_field (p : option price) : str :=
  match p with
  | Some v => if truthy p then fmt_price v else NA
  | None => NA
  end.

(** [name.lower().strip()[:100]] *)
Definition name_key (name : str) : str := firstn 100 (strip (lower name)).

(** The name of a container, when it has one that passes the checks made
    before the de-duplication. *)
Definition candidate_name (container : node) : option str :=
  match find_product_name container with
  | None => None
  | Some name =>
      if Nat.ltb (length name) 5 then None
      else if is_invalid_product_name name then None
      else if is_non_footwear_item name then None
      else Some name
  end.

(** [scored_elements.sort(reverse=True, key=lambda x: x[0])]: stable. *)
Fixpoint insert_scored (x : nat * element) (xs : list (nat * element))
  : list (nat * element) :=
  match xs with
  | [] => [x]
  | y :: ys =>
      if Nat.ltb (fst x) (fst y) then y :: insert_scored x ys
      else x :: y :: ys
  end.
Definition sort_scored (xs : list (nat * element)) : list (nat * element) :=
  fold_right insert_scored [] xs.

(** The elements that score 5 or more, in document order. *)
Definition scored_elements (soup : node) : list (nat * element) :=
  filter (fun se => Nat.leb 5 (fst se))
    (map (fun elem => (score_as_product_container (self elem), elem))
       (find_all (named_in eligible_tags) soup)).

Definition product_containers (soup : node) : list element :=
  map snd (firstn 300 (sort_scored (scored_elements soup))).

(** The three patterns of the fallback: [(\d+\.\d{2})\s*USD],
    [\$\s*(\d+\.\d{2})] and [(\d{1,3},\d{3}\.\d{2})] *)
Definition fallback_patterns : list regex :=
  [ cat [Grp (Seq (plus digit) cents); star space; word "USD"];
    cat [word "$"; star space; Grp (Seq (plus digit) cents)];
    Grp (cat [Rep digit 1 (Some 3); Chr 44; exactly 3 digit; cents]) ].

(** The prices the fallback accepts in a text: [5 < price < 2000]. *)
Definition fallback_prices (container_text : str) : list price :=
  flat_map
    (fun pattern =>
       flat_map
         (fun m =>
            match float (clean m) with
            | Some p => if ((500 <? p) && (p <? 200000))%Z then [p] else []
            | None => []
            end)
         (findall false pattern container_text))
    fallback_patterns.

Fixpoint prices_eqb (a b : list price) : bool :=
  match a, b with
  | [], [] => true
  | x :: a', y :: b' => (x =? y)%Z && prices_eqb a' b'
  | _, _ => false
  end.

(** [^\$?\d+\.?\d*] *)
Definition numeric_prefix : regex :=
  cat [Bol; opt (word "$"); plus digit; opt (Chr 46); star digit].

(** The name the anchor's own text gives. *)
Definition name_from_link_text (link_text : str) : option str :=
  if Nat.ltb 5 (length link_text) && Nat.ltb (length link_text) 200
     && negb (matches false numeric_prefix link_text)
  then Some link_text else None.

(** The name the path of [href] gives: the loop over
    [reversed(path_parts)], with [(name, stopped)] as its state. *)
Definition name_from_path (href : str) : option str :=
  let path_parts := split_on 47 (rstrip_char 47 href) in
  fst (fold_left
         (fun (st : option str * bool) part =>
            if snd st then st
            else if Nat.ltb 3 (length part)
                    && negb (startswith part (lit "?"))
            then
              let name :=
                title (replace (lit "_") (lit " ")
                         (replace (lit "-") (lit " ") part)) in
              (Some name, Nat.ltb 10 (length name))
            else st)
         (rev path_parts) (None, false)).

(** The name a heading of the container gives. *)
Definition name_from_heading (container : node) : option str :=
  first_of
    (map (fun tag =>
            match find_all (named tag) container with
            | heading :: _ =>
                let potential_name := get_text_strip (self heading) in
                if Nat.ltb 5 (length potential_name)
                   && Nat.ltb (length potential_name) 100
                then Some potential_name else None
            | [] => None
            end)
       ["h2"; "h3"; "h4"]%string).

Section Orchestrator.
(** [urllib.parse.urlparse] and [urllib.parse.urljoin] *)
Variable urlparse : str -> result url_parts.
Variable urljoin : str -> str -> result str.

Definition get_domain (url : str) : str :=
  match urlparse url with
  | Ok parsed =>
      let domain := lower (netloc parsed) in
      if startswith domain (lit "www.") then skipn 4 domain else domain
  | Raise => []
  end.

(** [domain.split('.')[0]] *)
Definition first_label (domain : str) : str := hd [] (split_on 46 domain).

(** [domain.split('.')[0].title() if domain else 'N/A'] *)
Definition brand_of (domain : str) : str :=
  match domain with
  | [] => NA
  | _ => title (first_label domain)
  end.

Definition make_product (name : str) (link : option str)
  (original sale : option price) (domain : str) : product :=
  {| Product_Name := name;
     Product_URL := match link with
                    | Some ((_ :: _) as u) => u
                    | _ => NA
                    end;
     Original_Price := price_field original;
     Sale_Price := price_field sale;
     Discount := calculate_discount original sale;
     Brand := brand_of domain;
     Category := lit "Footwear" |}.

(** The record of a container, once its name and link are known. *)
Definition container_record (name : str) (link : option str)
  (container : node) (domain : str) : product :=
  let (original, sale) := find_prices_bulletproof container in
  make_product name link original sale domain.

(** The loop over the containers; [seen_names] is the set of name keys
    met so far.  A fault inside one turn ends that turn only, after the
    key was added. *)
Fixpoint extract_fields (base_url domain : str)
  (containers : list element) (seen_names : list str) : list product :=
  match containers with
  | [] => []
  | container :: rest =>
      match candidate_name (self container) with
      | None => extract_fields base_url domain rest seen_names
      | Some name =>
          if mem (name_key name) seen_names
          then extract_fields base_url domain rest seen_names
          else
            let seen_names := name_key name :: seen_names in
            match find_product_link urljoin (self container) base_url with
            | Raise => extract_fields base_url domain rest seen_names
            | Ok link =>
                container_record name link (self container) domain
                :: extract_fields base_url domain rest seen_names
            end
      end
  end.

(** The price pair of the fallback, from the prices of one anchor. *)
Definition fallback_pair (prices : list price) : option price * price :=
  match prices with
  | _ :: _ :: _ =>
      (Some (last (sort_prices prices) 0%Z), hd 0%Z (sort_prices prices))
  | _ => (None, hd 0%Z prices)
  end.

(** The name the fallback gives the record of an anchor. *)
Definition fallback_name (base_url : str) (link : element)
  (sale_price : price) : str :=
  let href := get_or_empty (self link) "href" in
  let name :=
    first_of
      [ name_from_link_text (get_text_strip (self link));
        match href with
        | [] => None
        | _ => name_from_path href
        end;
        name_from_heading (parent link) ] in
  let name :=
    match name with
    | Some n => if Nat.ltb (length n) 5 then None else Some n
    | None => None
    end in
  match name with
  | Some n => n
  | None =>
      let domain := get_domain base_url in
      let brand :=
        match domain with
        | [] => lit "Product"
        | _ => map to_upper (first_label domain)
        end in
      brand ++ lit " Footwear - " ++ fmt_price sale_price
  end.

(** The record the fallback builds for an anchor whose parent text holds
    the prices [prices] (not empty). *)
Definition fallback_product (base_url : str) (link : element)
  (prices : list price) : result product :=
  let href := get_or_empty (self link) "href" in
  let (original_price, sale_price) := fallback_pair prices in
  let name := fallback_name base_url link sale_price in
  let full_link :=
    match href with
    | [] => Ok NA
    | _ => urljoin base_url href
    end in
  match full_link with
  | Raise => Raise
  | Ok full_link =>
      Ok {| Product_Name := name;
            Product_URL := full_link;
            Original_Price := price_field original_price;
            Sale_Price := fmt_price sale_price;
            Discount := calculate_discount original_price (Some sale_price);
            Brand := brand_of (get_domain base_url);
            Category := lit "Footwear" |}
  end.

(** The loop of the fallback over the anchors; [seen_prices] is the set
    of price tuples met so far.  A fault inside one turn ends that turn
    only, after the tuple was added. *)
Fixpoint fallback_loop (base_url : str) (links : list element)
  (seen_prices : list (list price)) : list product :=
  match links with
  | [] => []
  | link :: rest =>
      let href := get_or_empty (self link) "href" in
      if any_in link_skip_words (lower href)
      then fallback_loop base_url rest seen_prices
      else
        let container_text := get_text_sep_strip (parent link) in
        let prices := fallback_prices container_text in
        match prices with
        | [] => fallback_loop base_url rest seen_prices
        | _ :: _ =>
            let price_key := sort_prices prices in
            if existsb (prices_eqb price_key) seen_prices
            then fallback_loop base_url rest seen_prices
            else
              let seen_prices := price_key :: seen_prices in
              match fallback_product base_url link prices with
              | Raise => fallback_loop base_url rest seen_prices
              | Ok product =>
                  product :: fallback_loop base_url rest seen_prices
              end
        end
  end.

(** [soup] is the tree of [html_content]. *)
Definition extract_products_from_price_patterns (soup : node)
  (base_url : str) : list product :=
  fallback_loop base_url (anchors soup) [].

(** [base_url]: [f"{parsed.scheme}://{parsed.netloc}"], or the empty
    string for the empty source URL. *)
Definition base_url_of (source_url : str) : result str :=
  match source_url with
  | [] => Ok []
  | _ =>
      match urlparse source_url with
      | Ok parsed => Ok (scheme parsed ++ lit "://" ++ netloc parsed)
      | Raise => Raise
      end
  end.

(** The entry point.  [soup] is [BeautifulSoup(html_content,
    'html.parser')]; the parser is bs4's. *)
Definition parse_products_universal (soup : node)
  (html_content source_url : str) : result (list product * list str) :=
  let domain := get_domain source_url in
  match base_url_of source_url with
  | Raise => Raise
  | Ok base_url =>
      let products :=
        extract_fields base_url domain (product_containers soup) [] in
      let products :=
        match products with
        | [] =>
            extract_products_from_price_patterns soup
              (match base_url with [] => source_url | _ => base_url end)
        | _ => products
        end in
      Ok (products, extract_site_promotions html_content)
  end.
End Orchestrator.

(** ** Vocabulary of the statements *)

(** The texts on which the character classes and the case mapping of the
    embedding are Python's: those of code points below 128.  (Above, Python
    takes them from the Unicode database.) *)
Definition is_ascii (s : str) : bool := forallb (fun c => (c <? 128)%N) s.

(** A tree whose tag names, attributes and strings are such texts. *)
Fixpoint ascii_page (n : node) : bool :=
  match n with
  | Text s => is_ascii s
  | Tag nm a cs =>
      is_ascii nm
      && forallb (fun kv => is_ascii (fst kv) && is_ascii (snd kv)) a
      && (fix go (l : list node) : bool :=
            match l with
            | [] => true
            | c :: l' => ascii_page c && go l'
            end) cs
  end.


(** [subsequence picked l]: [picked] is [l] with some elements left out,
    the others in the same order. *)
Inductive subsequence {A : Type} : list A -> list A -> Prop :=
| sub_nil : subsequence [] []
| sub_skip (x : A) (l1 l2 : list A) :
    subsequence l1 l2 -> subsequence l1 (x :: l2)
| sub_keep (x : A) (l1 l2 : list A) :
    subsequence l1 l2 -> subsequence (x :: l1) (x :: l2).

(** [r] is the record the structural pass builds for the container [c]. *)
Definition emitted_by (urljoin : str -> str -> result str)
  (base_url domain : str) (c : element) (r : product) : Prop :=
  exists name link,
    candidate_name (self c) = Some name
    /\ find_product_link urljoin (self c) base_url = Ok link
    /\ r = container_record name link (self c) domain.

(** [r] is the record the fallback builds for the anchor [a]. *)
Definition linked_by (urlparse : str -> result url_parts)
  (urljoin : str -> str -> result str) (base_url : str)
  (a : element) (r : product) : Prop :=
  let prices := fallback_prices (get_text_sep_strip (parent a)) in
  prices <> []
  /\ fallback_product urlparse urljoin base_url a prices = Ok r.

(** The price fields of [r] render the pair [(original, sale)]. *)
Definition priced (r : product) (original sale : option price) : Prop :=
  Original_Price r = price_field original
  /\ Sale_Price r = price_field sale
  /\ Discount r = calculate_discount original sale.

(** Higher scores first. *)
Definition outranks (a b : nat * element) : Prop := (fst b <= fst a)%nat.

(** [ranked] lists the candidates of [soup] by descending score, the
    candidates of one score in document order. *)
Definition ranking_of (soup : node) (ranked : list (nat * element)) : Prop :=
  Permutation ranked (scored_elements soup)
  /\ StronglySorted outranks ranked
  /\ forall v,
       filter (fun se => Nat.eqb (fst se) v) ranked
       = filter (fun se => Nat.eqb (fst se) v) (scored_elements soup).

(** The order of the output: the records of the structural pass follow
    the ranking of their containers (its first 300), and the records of
    the fallback, taken when the structural pass emits nothing, follow
    the anchors of the document. *)
Definition follows_ranking (urlparse : str -> result url_parts)
  (urljoin : str -> str -> result str) (soup : node) (source_url : str)
  (products : list product) : Prop :=
  exists ranked base,
    ranking_of soup ranked
    /\ product_containers soup = map snd (firstn 300 ranked)
    /\ base_url_of urlparse source_url = Ok base
    /\ ((exists picked,
           subsequence picked (product_containers soup)
           /\ Forall2 (emitted_by urljoin base
                         (get_domain urlparse source_url))
                picked products)
        \/ (extract_fields urljoin base (get_domain urlparse source_url)
              (product_containers soup) [] = []
            /\ exists picked,
                 subsequence picked (anchors soup)
                 /\ Forall2 (linked_by urlparse urljoin
                               (match base with
                                | [] => source_url
                                | _ => base
                                end))
                      picked products)).

(** Where the URL field of [r] comes from: a container of the structural
    pass, with the sentinel when the link locator found no link (which is
    when the container has no anchor), or an anchor of the fallback, with
    the sentinel when its href is empty. *)
Definition url_or_sentinel (urlparse : str -> result url_parts)
  (urljoin : str -> str -> result str) (soup : node) (source_url : str)
  (r : product) : Prop :=
  exists base,
    base_url_of urlparse source_url = Ok base
    /\ ((exists c,
           In c (product_containers soup)
           /\ emitted_by urljoin base (get_domain urlparse source_url) c r
           /\ (find_product_link urljoin (self c) base = Ok None ->
               Product_URL r = NA)
           /\ (anchors (self c) = [] -> Product_URL r = NA))
        \/ (exists a,
              In a (anchors soup)
              /\ linked_by urlparse urljoin
                   (match base with [] => source_url | _ => base end) a r
              /\ (get_or_empty (self a) "href" = [] -> Product_URL r = NA))).

(** The price fields of one record: a pair [(original, sale)] behind
    them, a field being the sentinel exactly when its price is absent;
    when both are present they lie in the range of the extractor, the
    discount is the quotient of the two floats to one decimal if the
    original price is the higher one, and the sentinel if it is not. *)
Definition price_invariant (r : product) : Prop :=
  exists original sale,
    priced r original sale
    /\ (Original_Price r <> NA <-> original <> None)
    /\ (Sale_Price r <> NA <-> sale <> None)
    /\ forall o s,
         original = Some o -> sale = Some s ->
         (500 <= o <= 200000 /\ 500 <= s <= 200000)%Z
         /\ ((s < o)%Z ->
             Discount r = fmt_percent (discount o s)
             /\ Discount r <> NA)
         /\ ((o <= s)%Z -> Discount r = NA).

(** A promotion of the form [N% Off]. *)
Definition is_percent_entry (promo : str) : bool :=
  startswith (rev promo) (rev (lit "% Off")).


(** ** Vocabulary of the further properties *)

(** [s] holds no ASCII digit. *)
Definition no_digit (s : str) : bool :=
  forallb (fun c => negb (is_digit c)) s.

(** The loop [run] makes for a repetition [r{lo,hi}], by itself. *)
Definition rep_loop (ci : bool) (A : Type) (r : regex) (lo : nat)
  (hi : option nat) (k : cursor -> option A)
  : nat -> nat -> cursor -> option A :=
  fix loop (fuel n : nat) (cu : cursor) {struct fuel} : option A :=
    match fuel with
    | O => None
    | S fuel' =>
        let again :=
          if below n hi
          then run ci r
                 (fun cu' =>
                    if Nat.ltb (length (rest cu')) (length (rest cu))
                    then loop fuel' (S n) cu'
                    else None)
                 cu
          else None in
        match again with
        | Some x => Some x
        | None => if Nat.leb lo n then k cu else None
        end
    end.
Arguments rep_loop ci {A} r lo hi k _ _ _.

(** [r] cannot match without reading a digit. *)
Inductive needs_digit : regex -> Prop :=
| nd_cls (p : char -> bool) :
    (forall c, p c = true -> is_digit c = true) -> needs_digit (Cls p)
| nd_seq_l (a b : regex) : needs_digit a -> needs_digit (Seq a b)
| nd_seq_r (a b : regex) : needs_digit b -> needs_digit (Seq a b)
| nd_alt (a b : regex) :
    needs_digit a -> needs_digit b -> needs_digit (Alt a b)
| nd_rep (r : regex) (lo : nat) (hi : option nat) :
    (1 <= lo)%nat -> needs_digit r -> needs_digit (Rep r lo hi)
| nd_grp (r : regex) : needs_digit r -> needs_digit (Grp r).

(** The sorted price tuple under which the fallback de-duplicates the
    anchor [a]. *)
Definition price_tuple (a : element) : list price :=
  sort_prices (fallback_prices (get_text_sep_strip (parent a))).

(** The cursor [cu] with every character replaced by its image under
    [f]. *)
Definition cursor_map (f : char -> char) (cu : cursor) : cursor :=
  Cursor (option_map f (prev cu)) (map f (rest cu))
    (option_map (map f) (grp cu)).

(** [r] does not tell one digit from another: its literal characters are
    not digits and its classes hold of every digit or of none. *)
Inductive digit_blind : regex -> Prop :=
| db_eps : digit_blind Eps
| db_chr (c : char) : is_digit c = false -> digit_blind (Chr c)
| db_cls (p : char -> bool) :
    (forall x y, is_digit x = true -> is_digit y = true -> p x = p y) ->
    digit_blind (Cls p)
| db_seq (a b : regex) :
    digit_blind a -> digit_blind b -> digit_blind (Seq a b)
| db_alt (a b : regex) :
    digit_blind a -> digit_blind b -> digit_blind (Alt a b)
| db_rep (r : regex) (lo : nat) (hi : option nat) :
    digit_blind r -> digit_blind (Rep r lo hi)
| db_grp (r : regex) : digit_blind r -> digit_blind (Grp r)
| db_bol : digit_blind Bol
| db_wb : digit_blind Wb.

(** The digit [i] stands for the [i]-th character of [ds]; every other
    character stands for itself. *)
Definition respell (ds : str) (c : char) : char :=
  if is_digit c then nth (N.to_nat (c - 48)) ds c else c.

(** The shape of a rendered price with [k] digits before the point:
    [$2.01], [$23.01], [$234.01], ... *)
Definition price_shape (k : nat) : str :=
  lit "$" ++ map (fun i => (48 + N.of_nat i)%N) (seq 2 k) ++ lit ".01".

(** [limited\s*time], the one promotional pattern without a number. *)
Definition limited_time_re : regex :=
  cat [word "limited"; star space; word "time"].

(* ================================================================= *)
(** ** Pages and library stand-ins for the examples *)

Module Pages.

(** [urlparse] and [urljoin] on plain URLs, enough to run the model: the
    scheme is what precedes [://], the host what follows up to the next
    [/], [?] or [#], and a host with one square bracket and not the other
    is refused (urllib's [ValueError], "Invalid IPv6 URL"); a reference
    is joined to a base that is empty or of the form [scheme://host],
    which is what the orchestrator passes. *)
Fixpoint split_scheme (acc : str) (url : str) : option (str * str) :=
  match url with
  | [] => None
  | c :: url' =>
      if startswith url (lit "://")
      then Some (rev acc, skipn 3 url)
      else split_scheme (c :: acc) url'
  end.

Fixpoint host_of (s : str) : str :=
  match s with
  | [] => []
  | c :: s' =>
      if mem [c] (map lit ["/"; "?"; "#"]%string) then [] else c :: host_of s'
  end.

Definition urlparse (url : str) : result url_parts :=
  match split_scheme [] url with
  | Some (sch, after) =>
      let host := host_of after in
      if xorb (contains (lit "[") host) (contains (lit "]") host)
      then Raise
      else Ok (UrlParts sch host)
  | None => Ok (UrlParts [] [])
  end.

Definition urljoin (base url : str) : result str :=
  match base, url with
  | [], _ => Ok url
  | _, [] => Ok base
  | _, _ =>
      if contains (lit "://") url then Ok url
      else if startswith url (lit "/") then Ok (base ++ url)
      else Ok (base ++ lit "/" ++ url)
  end.

(** Tags and strings written with ASCII names. *)
Definition el (nm : string) (a : list (string * string)) (c : list node)
  : node :=
  Tag (lit nm) (map (fun kv => (lit (fst kv), lit (snd kv))) a) c.
Definition txt (s : string) : node := Text (lit s).

Local Open Scope string_scope.

(** A row of the output, written with ASCII fields. *)
Definition row (nm url original sale discount brand : string) : product :=
  Product (lit nm) (lit url) (lit original) (lit sale) (lit discount)
    (lit brand) (lit "Footwear").

(** A card whose crossed-out price is below its live price. *)
Definition inverted_card : node :=
  el "div" [("class", "product-card")]
    [ el "h2" [] [txt "Trail Runner Shoe"];
      el "del" [] [txt "$50"];
      el "span" [("class", "price")] [txt "$89.99"] ]%string.
Definition inverted_html : str :=
  lit ("<div class='product-card'><h2>Trail Runner Shoe</h2>"
       ++ "<del>$50</del><span class='price'>$89.99</span></div>").

(** A card with a crossed-out $120 and a live $89.99, and one with the
    two prices and no strikethrough markup. *)
Definition struck_card : node :=
  el "div" [("class", "product-card")]
    [ el "h2" [] [txt "Trail Runner Shoe"];
      el "del" [] [txt "$120"];
      el "span" [("class", "price")] [txt "$89.99"] ]%string.
Definition plain_card : node :=
  el "div" [("class", "product-card")]
    [ el "h2" [] [txt "Trail Runner Shoe"];
      el "span" [("class", "price")] [txt "$89.99"];
      el "span" [("class", "price")] [txt "$120.00"] ]%string.

(** Two cards: the first scores 7 and has no anchor, the second scores
    13. *)
Definition low_card : node :=
  el "div" [("class", "item")]
    [ el "h2" [] [txt "Classic Leather Boot"];
      el "span" [] [txt "$89.99"] ]%string.
Definition high_card : node :=
  el "div" [("class", "product-card")]
    [ el "a" [("href", "/p/trail")] [el "img" [] []];
      el "h2" [] [txt "Trail Runner Shoe"];
      el "del" [] [txt "$120"];
      el "span" [("class", "price")] [txt "$59.99"] ]%string.
Definition two_cards_html : str :=
  lit ("<div class='item'><h2>Classic Leather Boot</h2>"
       ++ "<span>$89.99</span></div>"
       ++ "<div class='product-card'><a href='/p/trail'><img></a>"
       ++ "<h2>Trail Runner Shoe</h2><del>$120</del>"
       ++ "<span class='price'>$59.99</span></div>").
Definition low_card_html : str :=
  lit ("<div class='item'><h2>Classic Leather Boot</h2>"
       ++ "<span>$89.99</span></div>").


(** A page without any scoring container: two paragraphs, each an anchor
    and a price, with the same anchor text. *)
Definition listing_a : node :=
  el "p" [] [ el "a" [("href", "/x")] [txt "Trail Runner Boot"];
              txt "$89.99" ]%string.
Definition listing_b : node :=
  el "p" [] [ el "a" [("href", "/y")] [txt "Trail Runner Boot"];
              txt "$59.99" ]%string.
Definition listings_html : str :=
  lit ("<p><a href='/x'>Trail Runner Boot</a>$89.99</p>"
       ++ "<p><a href='/y'>Trail Runner Boot</a>$59.99</p>").

(** A paragraph whose price is the lower bound of the range. *)
Definition five_dollars : node :=
  el "p" [] [ el "a" [("href", "/x")] [txt "Trail Runner Boot"];
              txt "$5.00" ]%string.
Definition five_dollars_html : str :=
  lit "<p><a href='/x'>Trail Runner Boot</a>$5.00</p>".

(** A card whose only anchors lead to the cart and to a fragment. *)
Definition cart_card : node :=
  el "div" [("class", "product-card")]
    [ el "a" [("href", "/cart/add")] [txt "Add to cart"];
      el "a" [("href", "#")] [txt "More"];
      el "h2" [] [txt "Trail Runner Shoe"] ]%string.

End Pages.

(** ** Further pages *)

Module Samples.

(** A paragraph with an anchor and two prices beside it. *)
Definition two_prices : node :=
  Pages.el "p" []
    [ Pages.el "a" [("href", "/x")]%string [Pages.txt "Trail Runner Boot"];
      Pages.txt "$89.99 was $120.00" ].

(** Its anchor, as [find_all] returns it. *)
Definition two_prices_anchor : element :=
  Element
    (Pages.el "a" [("href", "/x")]%string [Pages.txt "Trail Runner Boot"])
    two_prices.

(** A card whose discount, 20.01 / 60.00, is 33.35 percent. *)
Definition half_way_card : node :=
  Pages.el "div" [("class", "product-card")]%string
    [ Pages.el "h2" [] [Pages.txt "Trail Runner Shoe"];
      Pages.el "del" [] [Pages.txt "$60.00"];
      Pages.el "span" [("class", "price")]%string [Pages.txt "$39.99"] ].

End Samples.

(* ================================================================= *)
(** * Properties *)

(** ** Strings and lists *)

Lemma str_eqb_eq (a b : str) : str_eqb a b = true <-> a = b.
Proof.
  revert b; induction a as [|x a IH]; intros [|y b]; simpl;
    try (split; [discriminate | discriminate]); try tauto.
  rewrite andb_true_iff, N.eqb_eq, IH.
  split; [intros [-> ->]; reflexivity | intros H; inversion H; auto].
Qed.


Lemma price_in_In (p : price) (ps : list price) :
  price_in p ps = true <-> In p ps.
Proof.
  unfold price_in; rewrite existsb_exists; split.
  - intros [y [Hy He]]; apply Z.eqb_eq in He; subst; exact Hy.
  - intros H; exists p; split; [exact H | apply Z.eqb_refl].
Qed.

(** ** The price extractor stays in its range *)

Lemma in_range_bounds (p : price) :
  in_range p = true <-> (500 <= p <= 200000)%Z.
Proof. unfold in_range; rewrite andb_true_iff, !Z.leb_le; tauto. Qed.

Lemma first_in_range_ok (ms : list str) (p : price) :
  first_in_range ms = Some p -> in_range p = true.
Proof.
  induction ms as [|m ms IH]; simpl; [discriminate|].
  destruct (float (clean m)) as [q|]; [|exact IH].
  destruct (in_range q) eqn:Hq; [|exact IH].
  intros H; inversion H; subst; exact Hq.
Qed.

Lemma try_patterns_ok (ps : list regex) (text : str) (p : price) :
  try_patterns ps text = Some p -> in_range p = true.
Proof.
  induction ps as [|r ps IH]; simpl; [discriminate|].
  destruct (first_in_range (findall false r text)) as [q|] eqn:Hq;
    [|exact IH].
  intros H; inversion H; subst; eapply first_in_range_ok; exact Hq.
Qed.

Lemma extract_price_in_range (text : str) (p : price) :
  extract_price_bulletproof text = Some p -> in_range p = true.
Proof.
  unfold extract_price_bulletproof.
  destruct text as [|c text]; [discriminate|].
  destruct (_ && _); [discriminate|].
  destruct (_ && _); [discriminate|].
  apply try_patterns_ok.
Qed.

Lemma in_range_truthy (p : price) :
  in_range p = true -> truthy (Some p) = true.
Proof.
  rewrite in_range_bounds; intros H; simpl.
  apply negb_true_iff, Z.eqb_neq; lia.
Qed.

(** ** The two scans of the price-pair locator *)

Lemma first_price_in_range (els : list element) (p : price) :
  first_price els = Some p -> in_range p = true.
Proof.
  induction els as [|e els IH]; simpl; [discriminate|].
  destruct (extract_price_bulletproof (get_text (self e))) as [q|] eqn:Hq.
  - rewrite (in_range_truthy _ (extract_price_in_range _ _ Hq)).
    intros H; inversion H; subst; eapply extract_price_in_range; exact Hq.
  - simpl; exact IH.
Qed.

Lemma strike_price_in_range (c : node) (p : price) :
  strike_price c = Some p -> in_range p = true.
Proof. apply first_price_in_range. Qed.


Lemma price_step_ok (strike : list element) (ps : list price) (e : element) :
  prices_ok ps -> prices_ok (price_step strike ps e).
Proof.
  intros [Hnd Hall]; unfold price_step.
  repeat (match goal with |- context [if ?b then _ else _] =>
            destruct b eqn:?; [split; assumption|] end).
  destruct (extract_price_bulletproof _) as [p|] eqn:Hp; [|split; assumption].
  destruct (negb (p =? 0)%Z && negb (price_in p ps)) eqn:Hc;
    [|split; assumption].
  apply andb_true_iff in Hc; destruct Hc as [_ Hin].
  apply negb_true_iff in Hin.
  assert (~ In p ps) as Hnot.
  { intros Hi; apply price_in_In in Hi; congruence. }
  split.
  - apply NoDup_app; [exact Hnd | repeat constructor; intros [] | ].
    intros x Hx [Hx'|[]]; subst; contradiction.
  - apply Forall_app; split; [exact Hall|].
    repeat constructor; eapply extract_price_in_range; exact Hp.
Qed.

Lemma fold_price_step_ok (strike els : list element) (ps : list price) :
  prices_ok ps -> prices_ok (fold_left (price_step strike) els ps).
Proof.
  revert ps; induction els as [|e els IH]; simpl; intros ps H; [exact H|].
  apply IH, price_step_ok, H.
Qed.

Lemma other_prices_ok (c : node) : prices_ok (other_prices c).
Proof.
  apply fold_price_step_ok; split; constructor.
Qed.

(** ** [min] and [sort] *)

Lemma list_min_spec (x : price) (xs : list price) :
  In (list_min x xs) (x :: xs)
  /\ Forall (fun y => (list_min x xs <= y)%Z) (x :: xs).
Proof.
  revert x; induction xs as [|y ys IH]; intros x; simpl.
  - split; [left; reflexivity | repeat constructor; lia].
  - destruct (IH (if (y <? x)%Z then y else x)) as [Hin Hle].
    inversion Hle as [|? ? Hhd Htl]; subst.
    split.
    + destruct Hin as [Hin|Hin]; [|right; right; exact Hin].
      rewrite <- Hin; destruct (y <? x)%Z; [right; left|left]; reflexivity.
    + destruct (y <? x)%Z eqn:Hc;
        [apply Z.ltb_lt in Hc | apply Z.ltb_ge in Hc];
        repeat constructor; try lia; exact Htl.
Qed.

Lemma insert_price_perm (x : price) (xs : list price) :
  Permutation (x :: xs) (insert_price x xs).
Proof.
  induction xs as [|y ys IH]; simpl; [reflexivity|].
  destruct (x <? y)%Z; [reflexivity|].
  rewrite perm_swap; constructor; exact IH.
Qed.

Lemma insert_price_sorted (x : price) (xs : list price) :
  StronglySorted Z.le xs -> StronglySorted Z.le (insert_price x xs).
Proof.
  induction xs as [|y ys IH]; simpl; intros Hs.
  - repeat constructor.
  - inversion Hs as [|? ? Hys Hall]; subst.
    destruct (x <? y)%Z eqn:Hc;
      [apply Z.ltb_lt in Hc | apply Z.ltb_ge in Hc].
    + constructor; [exact Hs|].
      constructor; [lia|].
      eapply Forall_impl; [|exact Hall]; simpl; intros; lia.
    + constructor; [apply IH; exact Hys|].
      eapply Permutation_Forall; [apply insert_price_perm|].
      constructor; [exact Hc | exact Hall].
Qed.

Lemma sort_prices_from (xs acc : list price) :
  StronglySorted Z.le acc ->
  Permutation (acc ++ xs) (fold_left (fun a x => insert_price x a) xs acc)
  /\ StronglySorted Z.le (fold_left (fun a x => insert_price x a) xs acc).
Proof.
  revert acc; induction xs as [|x xs IH]; simpl; intros acc Hs.
  - rewrite app_nil_r; split; [reflexivity | exact Hs].
  - destruct (IH (insert_price x acc) (insert_price_sorted x acc Hs)) as [Hp Hs'].
    split; [|exact Hs'].
    rewrite <- Hp, <- insert_price_perm.
    symmetry; apply Permutation_middle.
Qed.

Lemma sort_prices_perm (xs : list price) : Permutation xs (sort_prices xs).
Proof. apply (sort_prices_from xs []); constructor. Qed.

Lemma sort_prices_sorted (xs : list price) :
  StronglySorted Z.le (sort_prices xs).
Proof. apply (sort_prices_from xs []); constructor. Qed.

Lemma sorted_last_max (l : list price) (d : price) :
  StronglySorted Z.le l -> Forall (fun p => (p <= last l d)%Z) l.
Proof.
  induction l as [|x l IH]; intros Hs; [constructor|].
  inversion Hs as [|? ? Hl Hall]; subst.
  destruct l as [|y l]; [repeat constructor; simpl; lia|].
  specialize (IH Hl).
  change (last (x :: y :: l) d) with (last (y :: l) d).
  constructor; [|exact IH].
  inversion Hall; subst; inversion IH; subst; lia.
Qed.

Lemma sorted_ends (l : list price) :
  StronglySorted Z.le l -> NoDup l -> (2 <= length l)%nat ->
  In (hd 0%Z l) l /\ In (last l 0%Z) l
  /\ Forall (fun p => (hd 0 l <= p <= last l 0)%Z) l
  /\ (hd 0 l < last l 0)%Z.
Proof.
  intros Hs Hnd Hlen.
  destruct l as [|x [|y l]]; simpl in Hlen; try lia.
  pose proof (sorted_last_max _ 0%Z Hs) as Hmax.
  inversion Hs as [|? ? Hl Hall]; subst.
  assert (In (last (x :: y :: l) 0%Z) (x :: y :: l)) as Hlast.
  { destruct (exists_last (l:=x :: y :: l)) as [l' [z Hz]]; [discriminate|].
    rewrite Hz, last_last; apply in_or_app; right; left; reflexivity. }
  repeat split.
  - left; reflexivity.
  - exact Hlast.
  - rewrite Forall_forall in *; intros p Hp; split.
    + destruct Hp as [<-|Hp]; [simpl; lia | apply Hall, Hp].
    + apply Hmax, Hp.
  - inversion Hnd as [|? ? Hnx _]; subst.
    inversion Hall as [|? ? Hxy _]; subst.
    inversion Hmax as [|? ? _ Hm]; subst; inversion Hm; subst.
    assert (x <> y) by (intros ->; apply Hnx; left; reflexivity).
    simpl hd; lia.
Qed.

(** The pair the locator returns, from the two scans. *)
Lemma resolve_struck (o : price) (ps : list price) :
  in_range o = true ->
  resolve_prices (Some o) ps =
  match ps with
  | p :: ps' => (Some o, Some (list_min p ps'))
  | [] => (None, Some o)
  end.
Proof.
  intros Ho; unfold resolve_prices.
  rewrite (in_range_truthy o Ho); reflexivity.
Qed.

Section PricePair.
Variable container : node.
Let strike := strike_price container.
Let others := other_prices container.

Lemma pair_struck_others (o : price) :
  strike = Some o -> others <> [] ->
  exists m, find_prices_bulletproof container = (Some o, Some m)
            /\ In m others /\ Forall (fun p => (m <= p)%Z) others.
Proof.
  intros Hs Hne; unfold find_prices_bulletproof.
  fold strike others; rewrite Hs.
  rewrite resolve_struck by (eapply strike_price_in_range; exact Hs).
  destruct others as [|p ps]; [contradiction|].
  exists (list_min p ps); split; [reflexivity | apply list_min_spec].
Qed.

Lemma pair_struck_alone (o : price) :
  strike = Some o -> others = [] ->
  find_prices_bulletproof container = (None, Some o).
Proof.
  intros Hs He; unfold find_prices_bulletproof.
  fold strike others; rewrite Hs, He.
  rewrite resolve_struck by (eapply strike_price_in_range; exact Hs).
  reflexivity.
Qed.

Lemma pair_unstruck_many :
  strike = None -> (2 <= length others)%nat ->
  exists lo hi,
    find_prices_bulletproof container = (Some hi, Some lo)
    /\ In lo others /\ In hi others
    /\ Forall (fun p => (lo <= p <= hi)%Z) others /\ (lo < hi)%Z.
Proof.
  intros Hs Hlen; unfold find_prices_bulletproof.
  fold strike others; rewrite Hs.
  pose proof (other_prices_ok container) as [Hnd _]; fold others in Hnd.
  pose proof (sort_prices_perm others) as Hp.
  destruct (sorted_ends _ (sort_prices_sorted others)) as (Hh & Hl & Hall & Hlt).
  - eapply Permutation_NoDup; [exact Hp | exact Hnd].
  - rewrite <- (Permutation_length Hp); exact Hlen.
  - exists (hd 0%Z (sort_prices others)), (last (sort_prices others) 0%Z).
    repeat split.
    + unfold resolve_prices; simpl truthy; cbv iota.
      destruct others as [|a [|b l]]; simpl in Hlen; try lia; reflexivity.
    + eapply Permutation_in; [symmetry; exact Hp | exact Hh].
    + eapply Permutation_in; [symmetry; exact Hp | exact Hl].
    + eapply Permutation_Forall; [symmetry; exact Hp | exact Hall].
    + exact Hlt.
Qed.

Lemma pair_unstruck_one (p : price) :
  strike = None -> others = [p] ->
  find_prices_bulletproof container = (None, Some p).
Proof.
  intros Hs He; unfold find_prices_bulletproof.
  fold strike others; rewrite Hs, He; reflexivity.
Qed.

Lemma pair_unstruck_none :
  strike = None -> others = [] ->
  find_prices_bulletproof container = (None, None).
Proof.
  intros Hs He; unfold find_prices_bulletproof.
  fold strike others; rewrite Hs, He; reflexivity.
Qed.
End PricePair.

(** C2.  The price-pair locator resolves, for every container: a
    strikethrough price with other prices gives original = the
    strikethrough price and sale = the least of the others; a
    strikethrough price alone becomes the sale price with no original;
    without a strikethrough price, two or more (distinct) prices give
    sale = least and original = greatest, one price gives sale = that
    price with no original, and none gives neither.  A card with a
    crossed-out $120 and a live $89.99, and a card with $89.99 and
    $120.00 and no strikethrough markup, both resolve to
    (original = 120.00, sale = 89.99). *)
Theorem C2_price_pair_resolution :
  (forall container : node,
     let strike := strike_price container in
     let others := other_prices container in
     NoDup others
     /\ (forall o, strike = Some o -> others <> [] ->
         exists m, find_prices_bulletproof container = (Some o, Some m)
                   /\ In m others /\ Forall (fun p => (m <= p)%Z) others)
     /\ (forall o, strike = Some o -> others = [] ->
         find_prices_bulletproof container = (None, Some o))
     /\ (strike = None -> (2 <= length others)%nat ->
         exists lo hi,
           find_prices_bulletproof container = (Some hi, Some lo)
           /\ In lo others /\ In hi others
           /\ Forall (fun p => (lo <= p <= hi)%Z) others /\ (lo < hi)%Z)
     /\ (forall p, strike = None -> others = [p] ->
         find_prices_bulletproof container = (None, Some p))
     /\ (strike = None -> others = [] ->
         find_prices_bulletproof container = (None, None)))
  /\ (strike_price Pages.struck_card = Some 12000%Z
      /\ other_prices Pages.struck_card = [8999%Z]
      /\ find_prices_bulletproof Pages.struck_card
         = (Some 12000%Z, Some 8999%Z))
  /\ (strike_price Pages.plain_card = None
      /\ other_prices Pages.plain_card = [8999%Z; 12000%Z]
      /\ find_prices_bulletproof Pages.plain_card
         = (Some 12000%Z, Some 8999%Z)).
Proof.
  split; [|split; vm_compute; repeat split; reflexivity].
  intros container strike others; repeat split.
  - apply other_prices_ok.
  - apply pair_struck_others.
  - apply pair_struck_alone.
  - apply pair_unstruck_many.
  - apply pair_unstruck_one.
  - apply pair_unstruck_none.
Qed.

(* ================================================================= *)
(** ** The price extractor on the inputs of the specification *)

(** C3, at the inputs where the code departs from it.  A price written
    with the euro sign (U+20AC) or the pound sign (U+00A3) is not
    extracted: the fourth and fifth patterns look for the characters the
    source file really holds, and only a text that spells the sign that
    way yields 19.99. *)
Theorem C3_euro_and_pound_not_extracted :
  extract_price_bulletproof (euro_sign :: lit "19.99") = None
  /\ extract_price_bulletproof (pound_sign :: lit "19.99") = None
  /\ extract_price_bulletproof (sym_euro ++ lit "19.99") = Some 1999%Z
  /\ extract_price_bulletproof (sym_pound ++ lit "19.99") = Some 1999%Z.
Proof. vm_compute; repeat split; reflexivity. Qed.

(** The other inputs of C3 behave as the specification says. *)
Lemma extract_price_dollar_inputs :
  extract_price_bulletproof (lit "$19.99") = Some 1999%Z
  /\ extract_price_bulletproof (lit "19.99 USD") = Some 1999%Z
  /\ extract_price_bulletproof (lit "$1,299.00") = Some 129900%Z
  /\ extract_price_bulletproof (lit "50% off") = None
  /\ extract_price_bulletproof (lit "$3.00") = None
  /\ extract_price_bulletproof (lit "$2500.00") = None.
Proof. vm_compute; repeat split; reflexivity. Qed.


Lemma first_in_range_values (p : regex) (text : str) :
  first_in_range (findall false p text) = hd_error (values_in_range p text).
Proof.
  unfold values_in_range.
  induction (findall false p text) as [|m ms IH]; simpl; [reflexivity|].
  destruct (float (clean m)) as [v|]; [|exact IH].
  destruct (in_range v); [reflexivity | exact IH].
Qed.

(** The pattern loop: the first pattern, in order, with an in-range match
    gives the result, by its first such match; no pattern with one gives
    no price. *)
Lemma try_patterns_first (ps : list regex) (text : str) :
  match try_patterns ps text with
  | Some v =>
      exists before p after,
        ps = before ++ p :: after
        /\ Forall (fun q => values_in_range q text = []) before
        /\ hd_error (values_in_range p text) = Some v
  | None => Forall (fun q => values_in_range q text = []) ps
  end.
Proof.
  induction ps as [|p ps IH]; simpl; [constructor|].
  rewrite first_in_range_values.
  destruct (values_in_range p text) as [|v vs] eqn:Hv; simpl.
  - destruct (try_patterns ps text) as [w|].
    + destruct IH as (before & q & after & -> & Hb & Hq).
      exists (p :: before), q, after; repeat split; auto.
    + constructor; auto.
  - exists [], p, ps; rewrite Hv; repeat split; constructor.
Qed.

(* ================================================================= *)
(** ** The promotion scanner and the fallback range *)

(** C7, at an input where the code departs from it.  The scanner sorts the
    matched percent values as strings, so of 5, 10, 20 and 30 it keeps
    5, 30 and 20, not the three highest numbers. *)
Theorem C7_percent_values_sorted_as_text :
  extract_site_promotions (lit "5% off 10% off 20% off 30% off")
  = [lit "5% Off"; lit "30% Off"; lit "20% Off"].
Proof. vm_compute; reflexivity. Qed.

Lemma fallback_prices_open (text : str) (p : price) :
  In p (fallback_prices text) -> (500 < p < 200000)%Z.
Proof.
  unfold fallback_prices; rewrite in_flat_map.
  intros (r & _ & Hin); rewrite in_flat_map in Hin.
  destruct Hin as (m & _ & Hin).
  destruct (float (clean m)) as [v|]; [|destruct Hin].
  destruct ((500 <? v)%Z && (v <? 200000)%Z) eqn:Hc; [|destruct Hin].
  destruct Hin as [<-|[]].
  apply andb_true_iff in Hc; rewrite !Z.ltb_lt in Hc; exact Hc.
Qed.

(** C8, at the inputs where the code departs from it.  The fallback keeps
    a price only when 5 < price < 2000: it drops $5.00 and $2000.00,
    which the structural price extractor accepts, and a page whose only
    price is $5.00 yields no record. *)
Theorem C8_fallback_drops_the_bounds :
  fallback_prices (lit "$5.00") = []
  /\ fallback_prices (lit "$2000.00") = []
  /\ fallback_prices (lit "$5.01 1,999.99") = [501%Z; 199999%Z]
  /\ extract_price_bulletproof (lit "$5.00") = Some 500%Z
  /\ extract_price_bulletproof (lit "$2000.00") = Some 200000%Z
  /\ parse_products_universal Pages.urlparse Pages.urljoin
       (soup [Pages.five_dollars]) Pages.five_dollars_html []
     = Ok ([], []).
Proof. vm_compute; repeat split; reflexivity. Qed.

(* ================================================================= *)
(** ** The empty document *)

(** C9, as the code has it.  On the empty document there is no container
    to score and no anchor for the fallback, and the entry point returns
    no product record and no promotion when the source URL is empty (the
    default, which is not parsed) or one [urlparse] accepts.  The source
    URL is parsed before the page is looked at and outside every [try]:
    when [urlparse] raises on it, the entry point raises. *)
Theorem C9_empty_document
  (urlparse : str -> result url_parts) (urljoin : str -> str -> result str)
  (source_url : str) :
  product_containers (soup []) = []
  /\ (source_url = [] \/ (exists parsed, urlparse source_url = Ok parsed) ->
      parse_products_universal urlparse urljoin (soup []) [] source_url
      = Ok ([], []))
  /\ (source_url <> [] -> urlparse source_url = Raise ->
      parse_products_universal urlparse urljoin (soup []) [] source_url
      = Raise).
Proof.
  split; [reflexivity|].
  unfold parse_products_universal, base_url_of.
  destruct source_url as [|c url].
  - split; [reflexivity | intros H; exfalso; apply H; reflexivity].
  - split.
    + intros [H|[parsed ->]]; [discriminate | reflexivity].
    + intros _ ->; reflexivity.
Qed.

(** The empty document with the default URL and with the URL of a shop. *)
Lemma C9_empty_document_default_url :
  parse_products_universal Pages.urlparse Pages.urljoin (soup []) [] []
  = Ok ([], [])
  /\ (exists parsed,
        Pages.urlparse (lit "https://www.shop.example/sale") = Ok parsed)
  /\ parse_products_universal Pages.urlparse Pages.urljoin (soup []) []
       (lit "https://www.shop.example/sale")
     = Ok ([], []).
Proof.
  assert (exists parsed,
            Pages.urlparse (lit "https://www.shop.example/sale") = Ok parsed)
    as Hp by (eexists; vm_compute; reflexivity).
  split; [|split; [exact Hp|]].
  - apply (C9_empty_document Pages.urlparse Pages.urljoin []).
    left; reflexivity.
  - apply (C9_empty_document Pages.urlparse Pages.urljoin
             (lit "https://www.shop.example/sale")).
    right; exact Hp.
Defined.

(** The empty document with a source URL that [urlparse] refuses: the
    entry point raises. *)
Lemma C9_unparsable_source_url :
  Pages.urlparse (lit "http://[bad") = Raise
  /\ parse_products_universal Pages.urlparse Pages.urljoin (soup []) []
       (lit "http://[bad")
     = Raise.
Proof. vm_compute; split; reflexivity. Qed.

(* ================================================================= *)
(** ** The link locator *)

Lemma link_step_skipped (best : option str * nat) (links : list element) :
  (forall a, In a links ->
     any_in link_skip_words (lower (get_or_empty (self a) "href")) = true) ->
  fold_left link_step links best = best.
Proof.
  revert best; induction links as [|a links IH]; intros best Hskip;
    [reflexivity|].
  simpl; unfold link_step at 2.
  rewrite (Hskip a (or_introl eq_refl)).
  apply IH; intros b Hb; apply Hskip; right; exact Hb.
Qed.

Lemma find_product_link_absent
  (urljoin : str -> str -> result str) (container : node) (base_url : str) :
  find_product_link urljoin container base_url = Ok None
  <-> anchors container = [].
Proof.
  unfold find_product_link.
  destruct (anchors container) as [|first links] eqn:Ha.
  - cbn; split; reflexivity.
  - split; [|discriminate].
    destruct (best_link (first :: links)) as [[|c href]|];
      destruct (urljoin base_url _); discriminate.
Qed.

(** C10.  When every anchor of a container has a skip token in its href,
    the link locator still returns a link: the href of the first anchor,
    joined to the base URL.  The skip list keeps an anchor out of the
    scoring only; the link is absent exactly when the container has no
    anchor with an href. *)
Theorem C10_skipped_anchors_still_linked
  (urljoin : str -> str -> result str) (container : node) (base_url : str) :
  (forall a, In a (anchors container) ->
     any_in link_skip_words (lower (get_or_empty (self a) "href")) = true) ->
  best_link (anchors container) = None
  /\ find_product_link urljoin container base_url
     = match anchors container with
       | first :: _ =>
           match urljoin base_url (get_or_empty (self first) "href") with
           | Ok u => Ok (Some u)
           | Raise => Raise
           end
       | [] => Ok None
       end
  /\ (find_product_link urljoin container base_url = Ok None
      <-> anchors container = []).
Proof.
  intros Hskip.
  assert (best_link (anchors container) = None) as Hb.
  { unfold best_link; rewrite link_step_skipped by exact Hskip; reflexivity. }
  split; [exact Hb|]; split; [|apply find_product_link_absent].
  unfold find_product_link; rewrite Hb; reflexivity.
Qed.

Lemma C10_cart_card_linked :
  (forall a, In a (anchors Pages.cart_card) ->
     any_in link_skip_words (lower (get_or_empty (self a) "href")) = true)
  /\ map (fun a => get_or_empty (self a) "href") (anchors Pages.cart_card)
     = [lit "/cart/add"; lit "#"]
  /\ find_product_link Pages.urljoin Pages.cart_card (lit "https://a.com")
     = Ok (Some (lit "https://a.com/cart/add")).
Proof.
  assert (forall a, In a (anchors Pages.cart_card) ->
            any_in link_skip_words (lower (get_or_empty (self a) "href"))
            = true) as Hskip.
  { intros a Ha; vm_compute in Ha.
    destruct Ha as [<-|[<-|[]]]; vm_compute; reflexivity. }
  split; [exact Hskip|]; split; [vm_compute; reflexivity|].
  destruct (C10_skipped_anchors_still_linked Pages.urljoin Pages.cart_card
              (lit "https://a.com") Hskip) as (_ & -> & _).
  vm_compute; reflexivity.
Defined.

(* ================================================================= *)
(** ** The ranking of the containers *)

Lemma insert_scored_perm (x : nat * element) (xs : list (nat * element)) :
  Permutation (x :: xs) (insert_scored x xs).
Proof.
  induction xs as [|y ys IH]; simpl; [reflexivity|].
  destruct (Nat.ltb (fst x) (fst y)); [|reflexivity].
  rewrite perm_swap; constructor; exact IH.
Qed.

Lemma sort_scored_perm (xs : list (nat * element)) :
  Permutation xs (sort_scored xs).
Proof.
  induction xs as [|x xs IH]; simpl; [reflexivity|].
  rewrite <- insert_scored_perm; constructor; exact IH.
Qed.

Lemma insert_scored_sorted (x : nat * element) (xs : list (nat * element)) :
  StronglySorted outranks xs -> StronglySorted outranks (insert_scored x xs).
Proof.
  induction xs as [|y ys IH]; simpl; intros Hs; [repeat constructor|].
  inversion Hs as [|? ? Hys Hall]; subst.
  destruct (Nat.ltb (fst x) (fst y)) eqn:Hc;
    [apply Nat.ltb_lt in Hc | apply Nat.ltb_ge in Hc].
  - constructor; [apply IH; exact Hys|].
    eapply Permutation_Forall; [apply insert_scored_perm|].
    constructor; [unfold outranks; lia | exact Hall].
  - constructor; [exact Hs|].
    constructor; [exact Hc|].
    eapply Forall_impl; [|exact Hall]; unfold outranks; simpl; intros; lia.
Qed.

Lemma sort_scored_sorted (xs : list (nat * element)) :
  StronglySorted outranks (sort_scored xs).
Proof.
  induction xs as [|x xs IH]; simpl; [constructor|].
  apply insert_scored_sorted, IH.
Qed.

(** The sort is stable: elements of one score keep their order. *)
Lemma insert_scored_stable (v : nat) (x : nat * element)
  (xs : list (nat * element)) :
  filter (fun se => Nat.eqb (fst se) v) (insert_scored x xs)
  = filter (fun se => Nat.eqb (fst se) v) (x :: xs).
Proof.
  induction xs as [|y ys IH]; [reflexivity|].
  simpl insert_scored.
  destruct (Nat.ltb (fst x) (fst y)) eqn:Hc; [|reflexivity].
  apply Nat.ltb_lt in Hc.
  simpl in *. rewrite IH.
  destruct (Nat.eqb (fst y) v) eqn:Hy; [|reflexivity].
  apply Nat.eqb_eq in Hy.
  destruct (Nat.eqb (fst x) v) eqn:Hx; [|reflexivity].
  apply Nat.eqb_eq in Hx; lia.
Qed.

Lemma sort_scored_stable (v : nat) (xs : list (nat * element)) :
  filter (fun se => Nat.eqb (fst se) v) (sort_scored xs)
  = filter (fun se => Nat.eqb (fst se) v) xs.
Proof.
  induction xs as [|x xs IH]; [reflexivity|].
  simpl sort_scored; rewrite insert_scored_stable.
  simpl; rewrite IH; reflexivity.
Qed.

(* ================================================================= *)
(** ** The two loops of the orchestrator *)

Lemma subsequence_refl {A : Type} (l : list A) : subsequence l l.
Proof. induction l; constructor; assumption. Qed.

Lemma container_record_name (name : str) (link : option str) (c : node)
  (domain : str) :
  Product_Name (container_record name link c domain) = name.
Proof.
  unfold container_record; destruct (find_prices_bulletproof c); reflexivity.
Qed.

Section Loops.
Variable urlparse : str -> result url_parts.
Variable urljoin : str -> str -> result str.
Variables base_url domain : str.

(** The records of the structural pass are those of a selection of the
    containers, in the order of the containers. *)
Lemma extract_fields_trace (containers : list element) (seen : list str) :
  exists picked,
    subsequence picked containers
    /\ Forall2 (emitted_by urljoin base_url domain) picked
         (extract_fields urljoin base_url domain containers seen).
Proof.
  revert seen; induction containers as [|c cs IH]; intros seen; simpl.
  - exists []; split; constructor.
  - destruct (candidate_name (self c)) as [name|] eqn:Hn.
    + destruct (mem (name_key name) seen).
      * destruct (IH seen) as (picked & Hs & Hf).
        exists picked; split; [constructor; exact Hs | exact Hf].
      * destruct (find_product_link urljoin (self c) base_url) as [link|]
          eqn:Hl.
        -- destruct (IH (name_key name :: seen)) as (picked & Hs & Hf).
           exists (c :: picked); split; [constructor; exact Hs|].
           constructor; [|exact Hf].
           exists name, link; repeat split; assumption.
        -- destruct (IH (name_key name :: seen)) as (picked & Hs & Hf).
           exists picked; split; [constructor; exact Hs | exact Hf].
    + destruct (IH seen) as (picked & Hs & Hf).
      exists picked; split; [constructor; exact Hs | exact Hf].
Qed.

(** The records of the fallback are those of a selection of the anchors,
    in the order of the anchors. *)
Lemma fallback_loop_trace (links : list element) (seen : list (list price)) :
  exists picked,
    subsequence picked links
    /\ Forall2 (linked_by urlparse urljoin base_url) picked
         (fallback_loop urlparse urljoin base_url links seen).
Proof.
  revert seen; induction links as [|a links IH]; intros seen;
    cbn [fallback_loop].
  - exists []; split; constructor.
  - destruct (any_in link_skip_words
                (lower (get_or_empty (self a) "href"))).
    { destruct (IH seen) as (picked & Hs & Hf).
      exists picked; split; [constructor; exact Hs | exact Hf]. }
    destruct (fallback_prices (get_text_sep_strip (parent a)))
      as [|p ps] eqn:Hp.
    { destruct (IH seen) as (picked & Hs & Hf).
      exists picked; split; [constructor; exact Hs | exact Hf]. }
    destruct (existsb _ seen).
    { destruct (IH seen) as (picked & Hs & Hf).
      exists picked; split; [constructor; exact Hs | exact Hf]. }
    destruct (fallback_product urlparse urljoin base_url a (p :: ps))
      as [r|] eqn:Hr;
      destruct (IH (sort_prices (p :: ps) :: seen)) as (picked & Hs & Hf).
    + exists (a :: picked); split; [constructor; exact Hs|].
      constructor; [|exact Hf].
      unfold linked_by; rewrite Hp; split; [discriminate | exact Hr].
    + exists picked; split; [constructor; exact Hs | exact Hf].
Qed.





(** What the entry point returns, by the pass that produced it. *)
Lemma parse_products_universal_cases (soup : node) (html source_url : str)
  (products : list product) (promos : list str) :
  parse_products_universal urlparse urljoin soup html source_url
  = Ok (products, promos) ->
  exists base,
    base_url_of urlparse source_url = Ok base
    /\ promos = extract_site_promotions html
    /\ ((extract_fields urljoin base (get_domain urlparse source_url)
           (product_containers soup) [] <> []
         /\ products
            = extract_fields urljoin base (get_domain urlparse source_url)
                (product_containers soup) [])
        \/ (extract_fields urljoin base (get_domain urlparse source_url)
              (product_containers soup) [] = []
            /\ products
               = extract_products_from_price_patterns urlparse urljoin soup
                   (match base with [] => source_url | _ => base end))).
Proof.
  unfold parse_products_universal.
  destruct (base_url_of urlparse source_url) as [base|]; [|discriminate].
  intros H; exists base; split; [reflexivity|].
  destruct (extract_fields urljoin base _ _ []) as [|r rs] eqn:He;
    inversion H; subst; (split; [reflexivity|]).
  - right; split; reflexivity.
  - left; split; [discriminate | reflexivity].
Qed.
End Loops.

Lemma subsequence_In {A : Type} (l1 l2 : list A) (x : A) :
  subsequence l1 l2 -> In x l1 -> In x l2.
Proof.
  induction 1 as [|y l1 l2 _ IH|y l1 l2 _ IH]; intros Hin.
  - exact Hin.
  - right; apply IH, Hin.
  - destruct Hin as [->|Hin]; [left; reflexivity | right; apply IH, Hin].
Qed.

Lemma Forall2_In_right {A B : Type} (P : A -> B -> Prop)
  (l1 : list A) (l2 : list B) (r : B) :
  Forall2 P l1 l2 -> In r l2 -> exists c, In c l1 /\ P c r.
Proof.
  induction 1 as [|c r' l1 l2 Hp _ IH]; intros Hin; [destruct Hin|].
  destruct Hin as [->|Hin].
  - exists c; split; [left; reflexivity | exact Hp].
  - destruct (IH Hin) as (c' & Hc & Hp').
    exists c'; split; [right; exact Hc | exact Hp'].
Qed.

(* ================================================================= *)
(** ** The order of the output *)

Lemma ranking_of_sort (soup : node) :
  ranking_of soup (sort_scored (scored_elements soup)).
Proof.
  repeat split.
  - symmetry; apply sort_scored_perm.
  - apply sort_scored_sorted.
  - intros v; apply sort_scored_stable.
Qed.

(** C4, as the code has it.  The records do not follow the document: the
    containers are ranked by descending score (candidates of one score in
    document order, the first 300 kept) and the records of the structural
    pass follow that ranking; only the records of the fallback follow
    the document order of their anchors. *)
Theorem C4_records_follow_the_ranking
  (urlparse : str -> result url_parts) (urljoin : str -> str -> result str)
  (soup : node) (html source_url : str)
  (products : list product) (promos : list str) :
  parse_products_universal urlparse urljoin soup html source_url
  = Ok (products, promos) ->
  follows_ranking urlparse urljoin soup source_url products.
Proof.
  intros H.
  destruct (parse_products_universal_cases _ _ _ _ _ _ _ H)
    as (base & Hb & _ & Hcase).
  exists (sort_scored (scored_elements soup)), base.
  split; [apply ranking_of_sort|].
  split; [reflexivity|].
  split; [exact Hb|].
  destruct Hcase as [[_ ->]|[He ->]].
  - left; apply extract_fields_trace.
  - right; split; [exact He|].
    apply fallback_loop_trace.
Qed.

(** On the page of two cards the card that comes second in the document
    scores higher, and its record comes first. *)
Lemma C4_higher_score_comes_first :
  map (fun se => (fst se, find_product_name (self (snd se))))
    (scored_elements (soup [Pages.low_card; Pages.high_card]))
  = [ (7, Some (lit "Classic Leather Boot"));
      (13, Some (lit "Trail Runner Shoe")) ]
  /\ parse_products_universal Pages.urlparse Pages.urljoin
       (soup [Pages.low_card; Pages.high_card]) Pages.two_cards_html []
     = Ok ([ Pages.row "Trail Runner Shoe" "/p/trail" "$120.00" "$59.99"
               "50.0%" "N/A";
             Pages.row "Classic Leather Boot" "N/A" "N/A" "$89.99" "N/A"
               "N/A" ], []).
Proof. vm_compute; split; reflexivity. Qed.

Lemma C4_two_cards_ranked :
  parse_products_universal Pages.urlparse Pages.urljoin
    (soup [Pages.low_card; Pages.high_card]) Pages.two_cards_html []
  = Ok ([ Pages.row "Trail Runner Shoe" "/p/trail" "$120.00" "$59.99"
            "50.0%" "N/A";
          Pages.row "Classic Leather Boot" "N/A" "N/A" "$89.99" "N/A"
            "N/A" ], [])
  /\ follows_ranking Pages.urlparse Pages.urljoin
       (soup [Pages.low_card; Pages.high_card]) []
       [ Pages.row "Trail Runner Shoe" "/p/trail" "$120.00" "$59.99"
           "50.0%" "N/A";
         Pages.row "Classic Leather Boot" "N/A" "N/A" "$89.99" "N/A"
           "N/A" ].
Proof.
  assert (parse_products_universal Pages.urlparse Pages.urljoin
            (soup [Pages.low_card; Pages.high_card]) Pages.two_cards_html []
          = Ok ([ Pages.row "Trail Runner Shoe" "/p/trail" "$120.00"
                    "$59.99" "50.0%" "N/A";
                  Pages.row "Classic Leather Boot" "N/A" "N/A" "$89.99"
                    "N/A" "N/A" ], [])) as H
    by (vm_compute; reflexivity).
  split; [exact H|].
  exact (C4_records_follow_the_ranking _ _ _ _ _ _ _ H).
Defined.

(* ================================================================= *)
(** ** The URL sentinel *)

Lemma container_record_url (name : str) (c : node) (domain : str) :
  Product_URL (container_record name None c domain) = NA.
Proof.
  unfold container_record; destruct (find_prices_bulletproof c); reflexivity.
Qed.

Lemma emitted_without_link (urljoin : str -> str -> result str)
  (base domain : str) (c : element) (r : product) :
  emitted_by urljoin base domain c r ->
  find_product_link urljoin (self c) base = Ok None ->
  Product_URL r = NA.
Proof.
  intros (name & link & _ & Hl & ->) Hnone.
  rewrite Hnone in Hl; inversion Hl; subst.
  apply container_record_url.
Qed.

Lemma linked_without_href (urlparse : str -> result url_parts)
  (urljoin : str -> str -> result str) (base : str) (a : element)
  (r : product) :
  linked_by urlparse urljoin base a r ->
  get_or_empty (self a) "href" = [] ->
  Product_URL r = NA.
Proof.
  intros [_ Hr] Hhref; unfold fallback_product in Hr.
  rewrite Hhref in Hr.
  destruct (fallback_pair _) as [o s].
  inversion Hr; reflexivity.
Qed.

(** C6, as the code has it.  The sentinel of the URL field is the string
    N/A: a record of the structural pass whose container gave no link
    (which is when it has no anchor) carries it, and so does a record of
    the fallback whose anchor has an empty href. *)
Theorem C6_missing_link_is_NA
  (urlparse : str -> result url_parts) (urljoin : str -> str -> result str)
  (soup : node) (html source_url : str)
  (products : list product) (promos : list str) (r : product) :
  parse_products_universal urlparse urljoin soup html source_url
  = Ok (products, promos) ->
  In r products ->
  url_or_sentinel urlparse urljoin soup source_url r.
Proof.
  intros H Hin.
  destruct (parse_products_universal_cases _ _ _ _ _ _ _ H)
    as (base & Hb & _ & Hcase).
  exists base; split; [exact Hb|].
  destruct Hcase as [[_ ->]|[_ ->]].
  - left.
    destruct (extract_fields_trace urljoin base
                (get_domain urlparse source_url)
                (product_containers soup) []) as (picked & Hs & Hf).
    destruct (Forall2_In_right _ _ _ _ Hf Hin) as (c & Hc & He).
    exists c; split; [eapply subsequence_In; eassumption|].
    split; [exact He|]; split.
    + intros Hn; eapply emitted_without_link; [exact He | exact Hn].
    + intros Ha; eapply emitted_without_link; [exact He|].
      apply find_product_link_absent, Ha.
  - right.
    destruct (fallback_loop_trace urlparse urljoin
                (match base with [] => source_url | _ => base end)
                (anchors soup) []) as (picked & Hs & Hf).
    destruct (Forall2_In_right _ _ _ _ Hf Hin) as (a & Ha & Hl).
    exists a; split; [eapply subsequence_In; eassumption|].
    split; [exact Hl | apply linked_without_href with (1 := Hl)].
Qed.

(** A card without an anchor: its record carries N/A, not the word
    unknown. *)
Lemma C6_sentinel_is_not_unknown :
  anchors Pages.low_card = []
  /\ find_product_link Pages.urljoin Pages.low_card [] = Ok None
  /\ parse_products_universal Pages.urlparse Pages.urljoin
       (soup [Pages.low_card]) Pages.low_card_html []
     = Ok ([ Pages.row "Classic Leather Boot" "N/A" "N/A" "$89.99" "N/A"
               "N/A" ], [])
  /\ Product_URL
       (Pages.row "Classic Leather Boot" "N/A" "N/A" "$89.99" "N/A" "N/A")
     <> lit "unknown".
Proof.
  repeat split; try (vm_compute; reflexivity).
  vm_compute; discriminate.
Qed.

Lemma C6_low_card_sentinel :
  parse_products_universal Pages.urlparse Pages.urljoin
    (soup [Pages.low_card]) Pages.low_card_html []
  = Ok ([ Pages.row "Classic Leather Boot" "N/A" "N/A" "$89.99" "N/A"
            "N/A" ], [])
  /\ In (Pages.row "Classic Leather Boot" "N/A" "N/A" "$89.99" "N/A" "N/A")
       [ Pages.row "Classic Leather Boot" "N/A" "N/A" "$89.99" "N/A" "N/A" ]
  /\ url_or_sentinel Pages.urlparse Pages.urljoin (soup [Pages.low_card]) []
       (Pages.row "Classic Leather Boot" "N/A" "N/A" "$89.99" "N/A" "N/A").
Proof.
  assert (parse_products_universal Pages.urlparse Pages.urljoin
            (soup [Pages.low_card]) Pages.low_card_html []
          = Ok ([ Pages.row "Classic Leather Boot" "N/A" "N/A" "$89.99"
                    "N/A" "N/A" ], [])) as H
    by (vm_compute; reflexivity).
  split; [exact H|].
  split; [left; reflexivity|].
  exact (C6_missing_link_is_NA _ _ _ _ _ _ _ _ H (or_introl eq_refl)).
Defined.

(* ================================================================= *)
(** ** De-duplication by name *)




(* ================================================================= *)
(** ** The price fields of a record *)

Lemma fmt_price_not_NA (p : price) : fmt_price p <> NA.
Proof.
  intros H.
  assert (hd 0%N (fmt_price p) = 36%N) as Hh by reflexivity.
  rewrite H in Hh; vm_compute in Hh; discriminate.
Qed.

Lemma fmt_percent_not_NA (x : PrimFloat.float) : fmt_percent x <> NA.
Proof.
  intros H.
  assert (last (fmt_percent x) 0%N = 37%N) as Hl.
  { unfold fmt_percent.
    change (lit "%") with [37%N]; apply last_last. }
  rewrite H in Hl; vm_compute in Hl; discriminate.
Qed.

Lemma price_field_in_range (p : price) :
  in_range p = true -> price_field (Some p) = fmt_price p.
Proof.
  intros H; unfold price_field; rewrite (in_range_truthy p H); reflexivity.
Qed.

Lemma price_field_present (o : option price) :
  (forall p, o = Some p -> in_range p = true) ->
  (price_field o <> NA <-> o <> None).
Proof.
  intros Hr; destruct o as [p|].
  - rewrite (price_field_in_range p (Hr p eq_refl)).
    split; [discriminate | intros _; apply fmt_price_not_NA].
  - split; intros H; exfalso; apply H; reflexivity.
Qed.

(** The invariant of a record whose prices are in range. *)
Lemma priced_invariant (r : product) (original sale : option price) :
  priced r original sale ->
  (forall p, original = Some p -> in_range p = true) ->
  (forall p, sale = Some p -> in_range p = true) ->
  price_invariant r.
Proof.
  intros (Ho & Hs & Hd) Hro Hrs.
  exists original, sale; split; [repeat split; assumption|].
  split; [rewrite Ho; apply price_field_present, Hro|].
  split; [rewrite Hs; apply price_field_present, Hrs|].
  intros o s -> ->.
  pose proof (Hro o eq_refl) as Hio; pose proof (Hrs s eq_refl) as His.
  assert (500 <= o <= 200000)%Z as Hbo by (apply in_range_bounds, Hio).
  assert (500 <= s <= 200000)%Z as Hbs by (apply in_range_bounds, His).
  split; [split; assumption|].
  rewrite Hd; unfold calculate_discount.
  rewrite (in_range_truthy o Hio), (in_range_truthy s His).
  assert ((0 <? s)%Z = true) as Hpos by (apply Z.ltb_lt; lia).
  rewrite Hpos; simpl andb.
  split.
  - intros Hlt.
    assert ((s <? o)%Z = true) as -> by (apply Z.ltb_lt; exact Hlt).
    split; [reflexivity | apply fmt_percent_not_NA].
  - intros Hle.
    assert ((s <? o)%Z = false) as -> by (apply Z.ltb_ge; exact Hle).
    reflexivity.
Qed.

Lemma find_prices_in_range (c : node) (original sale : option price) :
  find_prices_bulletproof c = (original, sale) ->
  (forall p, original = Some p -> in_range p = true)
  /\ (forall p, sale = Some p -> in_range p = true).
Proof.
  pose proof (other_prices_ok c) as [Hnd Hall].
  rewrite Forall_forall in Hall.
  unfold find_prices_bulletproof.
  destruct (strike_price c) as [o|] eqn:Hs.
  - pose proof (strike_price_in_range c o Hs) as Ho.
    rewrite (resolve_struck o _ Ho).
    destruct (other_prices c) as [|p ps] eqn:Hp; intros H; inversion H; subst.
    + split; [discriminate | intros q Hq; inversion Hq; subst; exact Ho].
    + split; intros q Hq; inversion Hq; subst; [exact Ho|].
      apply Hall, list_min_spec.
  - unfold resolve_prices; simpl truthy; cbv iota.
    pose proof (sort_prices_perm (other_prices c)) as Hperm.
    destruct (other_prices c) as [|a [|b l]] eqn:Hp;
      intros H; inversion H; subst.
    + split; discriminate.
    + split; [discriminate|].
      intros q Hq; inversion Hq; subst; apply Hall; left; reflexivity.
    + destruct (sorted_ends _ (sort_prices_sorted (a :: b :: l)))
        as (Hh & Hl & _).
      * eapply Permutation_NoDup; [exact Hperm | exact Hnd].
      * rewrite <- (Permutation_length Hperm); simpl; lia.
      * split; intros q Hq; inversion Hq; subst; apply Hall;
          (eapply Permutation_in; [symmetry; exact Hperm|]); assumption.
Qed.

Lemma container_record_invariant (name : str) (link : option str)
  (c : node) (domain : str) :
  price_invariant (container_record name link c domain).
Proof.
  unfold container_record.
  destruct (find_prices_bulletproof c) as [original sale] eqn:Hf.
  destruct (find_prices_in_range c _ _ Hf) as [Ho Hs].
  apply priced_invariant with (original := original) (sale := sale);
    [repeat split | exact Ho | exact Hs].
Qed.

Lemma fallback_pair_in_range (prices : list price)
  (original : option price) (sale : price) :
  prices <> [] ->
  Forall (fun p => in_range p = true) prices ->
  fallback_pair prices = (original, sale) ->
  (forall p, original = Some p -> in_range p = true)
  /\ in_range sale = true.
Proof.
  intros Hne Hall; rewrite Forall_forall in Hall.
  pose proof (sort_prices_perm prices) as Hperm.
  unfold fallback_pair.
  destruct prices as [|a [|b l]]; [contradiction| |];
    intros H; inversion H; subst.
  - split; [discriminate | apply Hall; left; reflexivity].
  - assert (sort_prices (a :: b :: l) <> []) as Hs.
    { intros He; rewrite He in Hperm.
      apply Permutation_length in Hperm; discriminate. }
    destruct (sort_prices (a :: b :: l)) as [|x xs] eqn:Hx;
      [contradiction|].
    split.
    + intros p Hp; inversion Hp; subst.
      apply Hall; eapply Permutation_in; [symmetry; exact Hperm|].
      destruct (exists_last (l:=x :: xs)) as [l' [z Hz]]; [discriminate|].
      change (In (last (x :: xs) 0%Z) (x :: xs)).
      rewrite Hz, last_last; apply in_or_app; right; left; reflexivity.
    + apply Hall; eapply Permutation_in; [symmetry; exact Hperm|].
      left; reflexivity.
Qed.

Lemma fallback_prices_in_range (text : str) :
  Forall (fun p => in_range p = true) (fallback_prices text).
Proof.
  apply Forall_forall; intros p Hp.
  apply fallback_prices_open in Hp; apply in_range_bounds; lia.
Qed.

Lemma linked_invariant (urlparse : str -> result url_parts)
  (urljoin : str -> str -> result str) (base : str) (a : element)
  (r : product) :
  linked_by urlparse urljoin base a r -> price_invariant r.
Proof.
  intros [Hne Hr]; unfold fallback_product in Hr.
  destruct (fallback_pair _) as [original sale] eqn:Hp.
  destruct (fallback_pair_in_range _ _ _ Hne (fallback_prices_in_range _) Hp)
    as [Ho Hs].
  destruct (match get_or_empty (self a) "href" with
            | [] => Ok NA
            | _ => urljoin base (get_or_empty (self a) "href")
            end) as [full_link|]; [|discriminate].
  inversion Hr; subst.
  apply priced_invariant with (original := original) (sale := Some sale).
  - repeat split; simpl.
    symmetry; apply price_field_in_range, Hs.
  - exact Ho.
  - intros p Hq; inversion Hq; subst; exact Hs.
Qed.

(** C1, as the code has it.  Behind the price fields of every emitted
    record there is a pair (original, sale); when both are present they
    lie in [5, 2000], so both are positive, and the discount field is
    (original - sale) / original * 100, computed on the floats as the
    code computes it and written with one decimal, when the original
    price is the higher one.  The original price need not be the higher
    one (a crossed-out price is kept as original whatever the other
    prices are), and then the discount field is the sentinel N/A. *)
Theorem C1_prices_of_every_record
  (urlparse : str -> result url_parts) (urljoin : str -> str -> result str)
  (soup : node) (html source_url : str)
  (products : list product) (promos : list str) (r : product) :
  parse_products_universal urlparse urljoin soup html source_url
  = Ok (products, promos) ->
  In r products ->
  price_invariant r.
Proof.
  intros H Hin.
  destruct (parse_products_universal_cases _ _ _ _ _ _ _ H)
    as (base & _ & _ & Hcase).
  destruct Hcase as [[_ ->]|[_ ->]].
  - destruct (extract_fields_trace urljoin base
                (get_domain urlparse source_url)
                (product_containers soup) []) as (picked & _ & Hf).
    destruct (Forall2_In_right _ _ _ _ Hf Hin)
      as (c & _ & name & link & _ & _ & ->).
    apply container_record_invariant.
  - destruct (fallback_loop_trace urlparse urljoin
                (match base with [] => source_url | _ => base end)
                (anchors soup) []) as (picked & _ & Hf).
    destruct (Forall2_In_right _ _ _ _ Hf Hin) as (a & _ & Hl).
    eapply linked_invariant; exact Hl.
Qed.

(** A card whose crossed-out price, $50, is below its live price,
    $89.99: both prices are emitted, the original one is the lower, and
    the discount is N/A. *)
Lemma C1_crossed_out_price_below_sale :
  strike_price Pages.inverted_card = Some 5000%Z
  /\ other_prices Pages.inverted_card = [8999%Z]
  /\ find_prices_bulletproof Pages.inverted_card
     = (Some 5000%Z, Some 8999%Z)
  /\ parse_products_universal Pages.urlparse Pages.urljoin
       (soup [Pages.inverted_card]) Pages.inverted_html []
     = Ok ([ Pages.row "Trail Runner Shoe" "N/A" "$50.00" "$89.99" "N/A"
               "N/A" ], []).
Proof. vm_compute; repeat split; reflexivity. Qed.

Lemma C1_two_cards_prices :
  parse_products_universal Pages.urlparse Pages.urljoin
    (soup [Pages.low_card; Pages.high_card]) Pages.two_cards_html []
  = Ok ([ Pages.row "Trail Runner Shoe" "/p/trail" "$120.00" "$59.99"
            "50.0%" "N/A";
          Pages.row "Classic Leather Boot" "N/A" "N/A" "$89.99" "N/A"
            "N/A" ], [])
  /\ In (Pages.row "Trail Runner Shoe" "/p/trail" "$120.00" "$59.99"
           "50.0%" "N/A")
       [ Pages.row "Trail Runner Shoe" "/p/trail" "$120.00" "$59.99"
           "50.0%" "N/A";
         Pages.row "Classic Leather Boot" "N/A" "N/A" "$89.99" "N/A"
           "N/A" ]
  /\ price_invariant
       (Pages.row "Trail Runner Shoe" "/p/trail" "$120.00" "$59.99"
          "50.0%" "N/A").
Proof.
  assert (parse_products_universal Pages.urlparse Pages.urljoin
            (soup [Pages.low_card; Pages.high_card]) Pages.two_cards_html []
          = Ok ([ Pages.row "Trail Runner Shoe" "/p/trail" "$120.00"
                    "$59.99" "50.0%" "N/A";
                  Pages.row "Classic Leather Boot" "N/A" "N/A" "$89.99"
                    "N/A" "N/A" ], [])) as H
    by (vm_compute; reflexivity).
  split; [exact H|].
  split; [left; reflexivity|].
  exact (C1_prices_of_every_record _ _ _ _ _ _ _ _ H (or_introl eq_refl)).
Defined.

(** A discount half-way between two tenths: the float quotient lies
    below 33.35 and the field reads 33.3%. *)
Lemma half_way_card_discount :
  find_prices_bulletproof Samples.half_way_card = (Some 6000%Z, Some 3999%Z)
  /\ map Discount
       (extract_fields Pages.urljoin [] []
          [Element Samples.half_way_card (soup [Samples.half_way_card])] [])
     = [lit "33.3%"].
Proof. vm_compute; split; reflexivity. Qed.

(* ================================================================= *)
(** ** Further properties of the leaf components *)

(** Every price the extractor returns lies in [5, 2000]. *)
Theorem extract_price_within_range (text : str) (p : price) :
  extract_price_bulletproof text = Some p -> (500 <= p <= 200000)%Z.
Proof.
  intros H; apply in_range_bounds; eapply extract_price_in_range; exact H.
Qed.

Lemma extract_price_within_range_example :
  extract_price_bulletproof (lit "$19.99") = Some 1999%Z
  /\ (500 <= 1999 <= 200000)%Z.
Proof.
  assert (extract_price_bulletproof (lit "$19.99") = Some 1999%Z) as H
    by (vm_compute; reflexivity).
  split; [exact H | exact (extract_price_within_range _ _ H)].
Defined.

(** Every price the fallback accepts lies strictly between 5 and 2000. *)
Theorem fallback_prices_strictly_inside (text : str) :
  Forall (fun p => (500 < p < 200000)%Z) (fallback_prices text).
Proof.
  apply Forall_forall; intros p Hp; eapply fallback_prices_open; exact Hp.
Qed.

(** The discount on the inputs of the specification: 100.00 and 75.00
    give 25.0%; a missing original, and an original below the sale price,
    give N/A.  Where the exact quotient lies half-way between two tenths
    the float decides: 60.00 and 39.99 give 33.3% (the quotient is 33.35),
    20.00 and 14.99 give 25.1% (25.05). *)
Theorem calculate_discount_examples :
  calculate_discount (Some 10000%Z) (Some 7500%Z) = lit "25.0%"
  /\ calculate_discount None (Some 7500%Z) = lit "N/A"
  /\ calculate_discount (Some 7500%Z) (Some 10000%Z) = lit "N/A"
  /\ calculate_discount (Some 6000%Z) (Some 3999%Z) = lit "33.3%"
  /\ calculate_discount (Some 2000%Z) (Some 1499%Z) = lit "25.1%".
Proof. vm_compute; repeat split; reflexivity. Qed.

(** The filters on the inputs of the specification. *)
Theorem filters_on_specified_inputs :
  is_promotional_text (lit "$10 Off") = true
  /\ is_promotional_text (lit "Save $15") = true
  /\ is_promotional_text (lit "Get $20 Off") = true
  /\ is_promotional_text (lit "$89.99") = false
  /\ is_invalid_product_name (lit "Original Price: $50") = true
  /\ is_invalid_product_name (lit "Men's Trail Runner Boot") = false
  /\ is_non_footwear_item (lit "Sign In") = true
  /\ is_non_footwear_item (lit "Gift Card $50") = true
  /\ is_non_footwear_item (lit "30% Off Boots") = true
  /\ is_non_footwear_item (lit "Men's Waterproof Hiking Boot") = false.
Proof. vm_compute; repeat split; reflexivity. Qed.

Lemma filter_firstn_length {A : Type} (f : A -> bool) (n : nat)
  (l : list A) :
  (length (filter f (firstn n l)) <= length (filter f l))%nat.
Proof.
  revert n; induction l as [|x l IH]; intros [|n]; simpl; try lia.
  specialize (IH n); destruct (f x); simpl; lia.
Qed.

Lemma free_shipping_not_percent (amount : str) :
  is_percent_entry (lit "Free Shipping: $" ++ amount ++ lit "+") = false.
Proof.
  unfold is_percent_entry.
  rewrite !rev_app_distr; reflexivity.
Qed.

Lemma percent_entries_capped (free percent clearance styles : list str) :
  filter is_percent_entry free = [] ->
  (length percent <= 3)%nat ->
  filter is_percent_entry clearance = [] ->
  filter is_percent_entry styles = [] ->
  (length (filter is_percent_entry
             (firstn 10 (((free ++ percent) ++ clearance) ++ styles)))
   <= 3)%nat.
Proof.
  intros Hf Hp Hc Hs.
  etransitivity; [apply filter_firstn_length|].
  rewrite !filter_app, !length_app, Hf, Hc, Hs.
  pose proof (filter_length_le is_percent_entry percent).
  simpl; lia.
Qed.

(** The promotion list has at most 10 entries, at most 3 of them
    percent-off entries. *)
Theorem site_promotions_capped (html_content : str) :
  (length (extract_site_promotions html_content) <= 10)%nat
  /\ (length (filter is_percent_entry
                (extract_site_promotions html_content)) <= 3)%nat.
Proof.
  unfold extract_site_promotions; split.
  - rewrite length_firstn; lia.
  - apply percent_entries_capped.
    + induction (distinct (findall true free_ship_pattern html_content))
        as [|a l IH]; [reflexivity|].
      rewrite map_cons; cbn [filter].
      rewrite free_shipping_not_percent; exact IH.
    + rewrite length_map, length_firstn; lia.
    + destruct (search true clearance_pattern html_content);
        vm_compute; reflexivity.
    + destruct (search true select_styles_pattern html_content);
        vm_compute; reflexivity.
Qed.

(* ================================================================= *)
(** ** No price without a digit *)

Section NoDigit.
Variable ci : bool.
Variable A : Type.

Lemma run_rep (r : regex) (lo : nat) (hi : option nat)
  (k : cursor -> option A) (cu : cursor) :
  run ci (Rep r lo hi) k cu
  = rep_loop ci r lo hi k (S (length (rest cu))) 0 cu.
Proof. reflexivity. Qed.

(** A match cannot succeed where its continuation never does. *)
Lemma run_stuck (r : regex) :
  forall (k : cursor -> option A) (cu : cursor),
    no_digit (rest cu) = true ->
    (forall cu', no_digit (rest cu') = true -> k cu' = None) ->
    run ci r k cu = None.
Proof.
  induction r as [|c|p|a IHa b IHb|a IHa b IHb|r IH lo hi|r IH| |];
    intros k cu Hcu Hk; [| | | | |rewrite run_rep| | |]; cbn [run].
  - apply Hk, Hcu.
  - destruct cu as [pv [|x s] g]; cbn in *; [reflexivity|].
    apply andb_true_iff in Hcu; destruct Hcu as [_ Hs].
    destruct (chr_ok ci c x); [apply Hk; exact Hs | reflexivity].
  - destruct cu as [pv [|x s] g]; cbn in *; [reflexivity|].
    apply andb_true_iff in Hcu; destruct Hcu as [_ Hs].
    destruct (p x); [apply Hk; exact Hs | reflexivity].
  - apply IHa; [exact Hcu|].
    intros cu' Hcu'; apply IHb; assumption.
  - rewrite (IHa k cu Hcu Hk); apply IHb; assumption.
  - generalize 0%nat as n.
    generalize (S (length (rest cu))) as fuel.
    intros fuel; revert cu Hcu.
    induction fuel as [|fuel IHf]; intros cu Hcu n; [reflexivity|].
    cbn [rep_loop]; fold (rep_loop ci r lo hi k).
    assert ((if below n hi
             then run ci r
                    (fun cu' =>
                       if Nat.ltb (length (rest cu')) (length (rest cu))
                       then rep_loop ci r lo hi k fuel (S n) cu'
                       else None)
                    cu
             else None) = None) as Hagain.
    { destruct (below n hi); [|reflexivity].
      apply IH; [exact Hcu|].
      intros cu' Hcu'.
      destruct (Nat.ltb _ _); [apply IHf; exact Hcu' | reflexivity]. }
    rewrite Hagain.
    destruct (Nat.leb lo n); [apply Hk; exact Hcu | reflexivity].
  - apply IH; [exact Hcu|].
    intros cu' Hcu'; apply Hk; exact Hcu'.
  - destruct (prev cu); [reflexivity | apply Hk; exact Hcu].
  - destruct (xorb _ _); [apply Hk; exact Hcu | reflexivity].
Qed.

(** A pattern that needs a digit does not match a text without one. *)
Lemma run_needs_digit (r : regex) :
  needs_digit r ->
  forall (k : cursor -> option A) (cu : cursor),
    no_digit (rest cu) = true -> run ci r k cu = None.
Proof.
  induction 1 as [p Hp|a b _ IH|a b _ IH|a b _ IHa _ IHb|r lo hi Hlo _ IH
                 |r _ IH]; intros k cu Hcu;
    [| | | |rewrite run_rep|]; cbn [run].
  - destruct cu as [pv [|x s] g]; cbn in *; [reflexivity|].
    apply andb_true_iff in Hcu; destruct Hcu as [Hx _].
    destruct (p x) eqn:Hpx; [|reflexivity].
    rewrite (Hp x Hpx) in Hx; discriminate.
  - apply IH; exact Hcu.
  - apply run_stuck; [exact Hcu|].
    intros cu' Hcu'; apply IH; exact Hcu'.
  - rewrite (IHa k cu Hcu); apply IHb; exact Hcu.
  - cbn [rep_loop]; fold (rep_loop ci r lo hi k).
    destruct (below 0 hi); [rewrite IH by exact Hcu|];
      (destruct lo as [|lo]; [lia | reflexivity]).
  - apply IH; exact Hcu.
Qed.
End NoDigit.

Lemma exec_needs_digit (ci : bool) (r : regex) (cu : cursor) :
  needs_digit r -> no_digit (rest cu) = true -> exec ci r cu = None.
Proof. intros Hr Hcu; apply run_needs_digit; assumption. Qed.

Lemma findall_needs_digit (ci : bool) (r : regex) (s : str) :
  needs_digit r -> no_digit s = true -> findall ci r s = [].
Proof.
  intros Hr; unfold findall.
  generalize (S (length s)) as fuel, (@None char) as p.
  intros fuel; revert s.
  induction fuel as [|fuel IH]; intros s p Hs; [reflexivity|].
  cbn [findall_from].
  rewrite exec_needs_digit by assumption.
  destruct s as [|c s]; [reflexivity|].
  apply IH; cbn in Hs; apply andb_true_iff in Hs; apply Hs.
Qed.

Lemma lstrip_incl (s : str) (c : char) : In c (lstrip s) -> In c s.
Proof.
  induction s as [|x s IH]; simpl; [tauto|].
  destruct (is_space x); [intros H; right; apply IH, H | tauto].
Qed.

Lemma strip_incl (s : str) (c : char) : In c (strip s) -> In c s.
Proof.
  unfold strip, rstrip; intros H.
  apply in_rev, lstrip_incl, in_rev, lstrip_incl in H; exact H.
Qed.

Lemma lstrip_keeps (s : str) (c : char) :
  is_space c = false -> In c s -> In c (lstrip s).
Proof.
  intros Hc; induction s as [|x s IH]; simpl; [tauto|].
  intros [->|Hin].
  - rewrite Hc; left; reflexivity.
  - destruct (is_space x); [apply IH, Hin | right; exact Hin].
Qed.

Lemma strip_keeps (s : str) (c : char) :
  is_space c = false -> In c s -> In c (strip s).
Proof.
  intros Hc Hin; unfold strip, rstrip.
  apply in_rev; rewrite rev_involutive.
  apply lstrip_keeps; [exact Hc|].
  apply in_rev; rewrite rev_involutive.
  apply lstrip_keeps; assumption.
Qed.

Lemma no_digit_strip (s : str) :
  no_digit s = true -> no_digit (strip s) = true.
Proof.
  unfold no_digit; rewrite !forallb_forall.
  intros H c Hc; apply H, strip_incl, Hc.
Qed.

Lemma contains_char (c : char) (s : str) :
  contains [c] s = true <-> In c s.
Proof.
  induction s as [|x s IH]; simpl.
  - split; [discriminate | tauto].
  - assert (startswith s [] = true) as Hnil by (destruct s; reflexivity).
    rewrite Hnil, andb_true_r, orb_true_iff, IH, N.eqb_eq.
    split; (intros [H|H]; [left; symmetry; exact H | right; exact H]).
Qed.

Lemma price_patterns_need_digits : Forall needs_digit price_patterns.
Proof.
  assert (needs_digit digit) as Hd by (constructor; intros c H; exact H).
  assert (needs_digit amount) as Ha
    by (apply nd_seq_l, nd_rep; [lia | exact Hd]).
  unfold price_patterns; repeat apply Forall_cons; try apply Forall_nil;
    cbn [cat].
  - apply nd_seq_r, nd_seq_r, nd_grp, nd_seq_l, Ha.
  - apply nd_seq_r, nd_seq_r, nd_grp, Ha.
  - apply nd_seq_l, nd_grp, nd_seq_l, Ha.
  - apply nd_seq_r, nd_seq_r, nd_grp, nd_seq_l, Ha.
  - apply nd_seq_r, nd_seq_r, nd_grp, nd_seq_l, Ha.
  - apply nd_seq_l, nd_grp, nd_seq_l, Ha.
Qed.

Lemma fallback_patterns_need_digits : Forall needs_digit fallback_patterns.
Proof.
  assert (needs_digit digit) as Hd by (constructor; intros c H; exact H).
  unfold fallback_patterns; repeat apply Forall_cons; try apply Forall_nil;
    cbn [cat].
  - apply nd_seq_l, nd_grp, nd_seq_l, nd_rep; [lia | exact Hd].
  - apply nd_seq_r, nd_seq_r, nd_grp, nd_seq_l, nd_rep; [lia | exact Hd].
  - apply nd_grp, nd_seq_l, nd_rep; [lia | exact Hd].
Qed.

Lemma try_patterns_no_digit (ps : list regex) (text : str) :
  Forall needs_digit ps -> no_digit text = true ->
  try_patterns ps text = None.
Proof.
  intros Hps Ht; induction Hps as [|p ps Hp _ IH]; [reflexivity|].
  simpl; rewrite (findall_needs_digit false p text Hp Ht); exact IH.
Qed.

(** An ASCII text without a digit never yields a price: neither the
    price extractor nor the patterns of the fallback find one. *)
Theorem no_digit_no_price (text : str) :
  is_ascii text = true ->
  no_digit text = true ->
  extract_price_bulletproof text = None /\ fallback_prices text = [].
Proof.
  intros _ Ht; split.
  - unfold extract_price_bulletproof.
    destruct text as [|c text]; [reflexivity|].
    destruct (_ && _); [reflexivity|].
    destruct (_ && _); [reflexivity|].
    apply try_patterns_no_digit;
      [apply price_patterns_need_digits | apply no_digit_strip, Ht].
  - unfold fallback_prices.
    induction fallback_patterns_need_digits as [|p ps Hp _ IH];
      [reflexivity|].
    simpl; rewrite (findall_needs_digit false p text Hp Ht); exact IH.
Qed.

Lemma no_digit_no_price_example :
  is_ascii (lit "Free shipping on all orders $") = true
  /\ no_digit (lit "Free shipping on all orders $") = true
  /\ extract_price_bulletproof (lit "Free shipping on all orders $") = None
  /\ fallback_prices (lit "Free shipping on all orders $") = [].
Proof.
  assert (is_ascii (lit "Free shipping on all orders $") = true) as Ha
    by (vm_compute; reflexivity).
  assert (no_digit (lit "Free shipping on all orders $") = true) as H
    by (vm_compute; reflexivity).
  split; [exact Ha|]; split; [exact H | exact (no_digit_no_price _ Ha H)].
Defined.

(** A text with a percent sign and no dollar sign is a discount label:
    it never yields a price, whatever else it holds. *)
Theorem percent_without_dollar_no_price (text : str) :
  In 37%N text -> ~ In 36%N text ->
  extract_price_bulletproof text = None.
Proof.
  intros Hp Hd; unfold extract_price_bulletproof.
  destruct text as [|c text]; [reflexivity|].
  assert (contains (lit "%") (strip (c :: text)) = true) as ->
    by (apply (contains_char 37), strip_keeps; [reflexivity | exact Hp]).
  assert (contains sym_dollar (strip (c :: text)) = false) as ->.
  { destruct (contains sym_dollar (strip (c :: text))) eqn:He;
      [|reflexivity].
    apply (contains_char 36), strip_incl in He; contradiction. }
  reflexivity.
Qed.

Lemma percent_without_dollar_example :
  In 37%N (lit "Now 25% cheaper: 49.99 USD")
  /\ ~ In 36%N (lit "Now 25% cheaper: 49.99 USD")
  /\ extract_price_bulletproof (lit "Now 25% cheaper: 49.99 USD") = None.
Proof.
  assert (In 37%N (lit "Now 25% cheaper: 49.99 USD")) as Hp
    by (vm_compute; tauto).
  assert (~ In 36%N (lit "Now 25% cheaper: 49.99 USD")) as Hd.
  { vm_compute; intros H.
    repeat (destruct H as [H|H]; [discriminate H|]); exact H. }
  split; [exact Hp|]; split; [exact Hd|].
  exact (percent_without_dollar_no_price _ Hp Hd).
Defined.

(* ================================================================= *)
(** ** The discount and the name validators *)


Lemma no_alpha_count (name : str) :
  existsb is_alpha name = false -> length (filter is_alpha name) = 0%nat.
Proof.
  induction name as [|c name IH]; simpl; [reflexivity|].
  destruct (is_alpha c); [discriminate | exact IH].
Qed.

(** The name validator rejects every ASCII name without a letter (the
    empty name among them) and every name that starts, after white space,
    with a dollar sign. *)
Theorem is_invalid_product_name_rejects (name : str) :
  is_ascii name = true /\ existsb is_alpha name = false
  \/ startswith (strip name) sym_dollar = true ->
  is_invalid_product_name name = true.
Proof.
  intros H; unfold is_invalid_product_name.
  destruct name as [|c name]; [reflexivity|].
  destruct (existsb (startswith _) price_text_indicators); [reflexivity|].
  destruct (startswith (strip (c :: name)) sym_dollar) eqn:Hd;
    [reflexivity|].
  destruct H as [[_ Hal]|Hdl]; [|discriminate].
  destruct (negb _ && _); [reflexivity|].
  rewrite (no_alpha_count _ Hal); reflexivity.
Qed.

Lemma is_invalid_product_name_rejects_example :
  (is_ascii (lit "89.99 - 120.00") = true
   /\ existsb is_alpha (lit "89.99 - 120.00") = false
   \/ startswith (strip (lit "89.99 - 120.00")) sym_dollar = true)
  /\ is_invalid_product_name (lit "89.99 - 120.00") = true.
Proof.
  assert (is_ascii (lit "89.99 - 120.00") = true
          /\ existsb is_alpha (lit "89.99 - 120.00") = false) as H
    by (split; vm_compute; reflexivity).
  split; [left; exact H|].
  exact (is_invalid_product_name_rejects _ (or_introl H)).
Defined.

Lemma lower_keeps (c : char) (s : str) :
  is_upper c = false -> In c s -> In c (lower s).
Proof.
  intros Hc Hin; unfold lower.
  replace c with (to_lower c) by (unfold to_lower; rewrite Hc; reflexivity).
  apply in_map, Hin.
Qed.

(** The non-footwear filter excludes every name that is not empty and is
    shorter than 8 characters once stripped, and every name with a
    question mark. *)
Theorem is_non_footwear_item_excludes (name : str) :
  name <> [] ->
  (length (strip name) < 8)%nat \/ In 63%N name ->
  is_non_footwear_item name = true.
Proof.
  intros Hne H; unfold is_non_footwear_item.
  destruct name as [|c name]; [contradiction|].
  repeat (match goal with
          | |- (if ?b then true else _) = true =>
              destruct b eqn:?; [reflexivity|]
          end).
  match goal with
  | Hlen : Nat.ltb (length (strip (c :: name))) 8 = false |- _ =>
      apply Nat.ltb_ge in Hlen
  end.
  destruct H as [Hshort|Hq]; [lia|].
  unfold any_in, question_patterns; cbn [map existsb].
  apply orb_true_iff; left.
  apply (contains_char 63), lower_keeps; [reflexivity | exact Hq].
Qed.

Lemma is_non_footwear_item_excludes_example :
  lit "Hiking boot sizes?" <> []
  /\ ((length (strip (lit "Hiking boot sizes?")) < 8)%nat
      \/ In 63%N (lit "Hiking boot sizes?"))
  /\ is_non_footwear_item (lit "Hiking boot sizes?") = true.
Proof.
  assert (lit "Hiking boot sizes?" <> []) as Hne
    by (vm_compute; discriminate).
  assert (In 63%N (lit "Hiking boot sizes?")) as Hq
    by (vm_compute; tauto).
  split; [exact Hne|]; split; [right; exact Hq|].
  exact (is_non_footwear_item_excludes _ Hne (or_intror Hq)).
Defined.

(* ================================================================= *)
(** ** The scorer and the locators *)

Lemma first_of_In {A : Type} (tries : list (option A)) (x : A) :
  first_of tries = Some x -> In (Some x) tries.
Proof.
  induction tries as [|[y|] tries IH]; simpl; [discriminate| |].
  - intros H; left; exact H.
  - intros H; right; apply IH, H.
Qed.

Lemma first_text_found (ok : str -> bool) (els : list element) (t : str) :
  first_text ok els = Some t ->
  ok t = true /\ exists e, In e els /\ t = get_text_strip (self e).
Proof.
  induction els as [|e els IH]; simpl; [discriminate|].
  destruct (ok (get_text_strip (self e))) eqn:Hok.
  - intros H; inversion H; subst; split; [exact Hok|].
    exists e; split; [left|]; reflexivity.
  - intros H; destruct (IH H) as (Ht & e' & He & ->).
    split; [exact Ht|]; exists e'; split; [right; exact He | reflexivity].
Qed.

Lemma find_all_descendant (p : node -> bool) (n : node) (e : element) :
  In e (find_all p n) -> In e (descendants n) /\ p (self e) = true.
Proof. unfold find_all; rewrite filter_In; tauto. Qed.

Lemma find_product_name_found (container : node) (name : str) :
  find_product_name container = Some name ->
  (10 <= length name <= 250)%nat
  /\ exists e, In e (descendants container)
               /\ name = get_text_strip (self e).
Proof.
  unfold find_product_name; intros H; apply first_of_In in H.
  assert (forall ok els,
            (forall t, ok t = true -> (10 <= length t <= 250)%nat) ->
            (forall e, In e els -> In e (descendants container)) ->
            first_text ok els = Some name ->
            (10 <= length name <= 250)%nat
            /\ exists e, In e (descendants container)
                         /\ name = get_text_strip (self e)) as Hone.
  { intros ok els Hok Hels Hf.
    destruct (first_text_found _ _ _ Hf) as (Ht & e & He & Hn).
    split; [apply Hok, Ht | exists e; split; [apply Hels, He | exact Hn]]. }
  assert (forall lo hi t, len_between lo hi t = true ->
            (lo <= length t <= hi)%nat) as Hlen.
  { intros lo hi t Ht; unfold len_between in Ht.
    apply andb_true_iff in Ht; rewrite !Nat.leb_le in Ht; exact Ht. }
  assert (forall p e, In e (find_all p container) ->
            In e (descendants container)) as Hdesc
    by (intros p e He; apply (find_all_descendant p), He).
  repeat (apply in_app_or in H; destruct H as [H|H]).
  - apply in_map_iff in H; destruct H as (sel & Hf & _).
    apply (Hone _ _ (Hlen 10%nat 250%nat) (Hdesc _) Hf).
  - apply in_map_iff in H; destruct H as (tag & Hf & _).
    refine (Hone _ _ _ (Hdesc _) Hf).
    intros t Ht; apply andb_true_iff in Ht; apply (Hlen _ _ _ (proj1 Ht)).
  - destruct H as [Hf|[]].
    refine (Hone _ _ _ (Hdesc _) Hf).
    intros t Ht; apply andb_true_iff in Ht; apply (Hlen _ _ _ (proj1 Ht)).
  - apply in_map_iff in H; destruct H as (tag & Hf & _).
    refine (Hone _ _ _ (Hdesc _) Hf).
    intros t Ht; apply andb_true_iff in Ht.
    pose proof (Hlen _ _ _ (proj1 Ht)); lia.
Qed.

(** A product name, when the locator finds one, is the stripped text of
    an element below the container and has between 10 and 250
    characters. *)
Theorem find_product_name_bounds (container : node) (name : str) :
  find_product_name container = Some name ->
  (10 <= length name <= 250)%nat
  /\ exists e, In e (descendants container)
               /\ name = get_text_strip (self e).
Proof. apply find_product_name_found. Qed.

Lemma find_product_name_bounds_example :
  find_product_name Pages.high_card = Some (lit "Trail Runner Shoe")
  /\ (10 <= length (lit "Trail Runner Shoe") <= 250)%nat
  /\ exists e, In e (descendants Pages.high_card)
               /\ lit "Trail Runner Shoe" = get_text_strip (self e).
Proof.
  assert (find_product_name Pages.high_card
          = Some (lit "Trail Runner Shoe")) as H
    by (vm_compute; reflexivity).
  split; [exact H | exact (find_product_name_bounds _ _ H)].
Defined.

Lemma best_link_source (all links : list element)
  (best : option str * nat) :
  incl links all ->
  (forall h, fst best = Some h ->
     exists a, In a all
               /\ h = get_or_empty (self a) "href"
               /\ any_in link_skip_words (lower h) = false) ->
  forall h, fst (fold_left link_step links best) = Some h ->
    exists a, In a all
              /\ h = get_or_empty (self a) "href"
              /\ any_in link_skip_words (lower h) = false.
Proof.
  revert best; induction links as [|a links IH]; intros best Hin Hb h Hh;
    [apply Hb, Hh|].
  simpl in Hh; refine (IH (link_step best a) _ _ h Hh).
  - intros x Hx; apply Hin; right; exact Hx.
  - intros h' Hh'; unfold link_step in Hh'.
    destruct (any_in link_skip_words
                (lower (get_or_empty (self a) "href"))) eqn:Hs;
      [apply Hb, Hh'|].
    destruct (Nat.ltb (snd best) _); [|apply Hb, Hh'].
    inversion Hh'; subst; exists a; repeat split;
      [apply Hin; left; reflexivity | exact Hs].
Qed.

(** A link, when the locator returns one, is the href of an anchor of
    the container joined to the base URL; an href on the skip list is
    returned only for the first anchor. *)
Theorem find_product_link_source
  (urljoin : str -> str -> result str) (container : node)
  (base_url u : str) :
  find_product_link urljoin container base_url = Ok (Some u) ->
  exists a,
    In a (anchors container)
    /\ urljoin base_url (get_or_empty (self a) "href") = Ok u
    /\ (any_in link_skip_words (lower (get_or_empty (self a) "href"))
        = true ->
        hd_error (anchors container) = Some a).
Proof.
  unfold find_product_link; intros H.
  assert (forall first rest,
            anchors container = first :: rest ->
            urljoin base_url (get_or_empty (self first) "href") = Ok u ->
            exists a,
              In a (anchors container)
              /\ urljoin base_url (get_or_empty (self a) "href") = Ok u
              /\ (any_in link_skip_words
                    (lower (get_or_empty (self a) "href")) = true ->
                  hd_error (anchors container) = Some a)) as Hfirst.
  { intros first rest Ha Hu; exists first; rewrite Ha.
    split; [left; reflexivity|]; split; [exact Hu | reflexivity]. }
  destruct (best_link (anchors container)) as [[|c href]|] eqn:Hb.
  - destruct (anchors container) as [|first rest] eqn:Ha; [discriminate|].
    destruct (urljoin base_url _) as [v|] eqn:Hu; inversion H; subst.
    exact (Hfirst first rest eq_refl Hu).
  - destruct (best_link_source (anchors container) (anchors container)
                (None, 0%nat) (incl_refl _)) with (h := c :: href)
      as (a & Ha & Hh & Hs); [discriminate | exact Hb |].
    destruct (urljoin base_url (c :: href)) as [v|] eqn:Hu;
      inversion H; subst.
    exists a; split; [exact Ha|].
    rewrite <- Hh; split; [exact Hu|].
    intros Hs'; rewrite Hs in Hs'; discriminate.
  - destruct (anchors container) as [|first rest] eqn:Ha; [discriminate|].
    destruct (urljoin base_url _) as [v|] eqn:Hu; inversion H; subst.
    exact (Hfirst first rest eq_refl Hu).
Qed.

Lemma find_product_link_source_example :
  find_product_link Pages.urljoin Pages.high_card (lit "https://a.com")
  = Ok (Some (lit "https://a.com/p/trail"))
  /\ exists a,
       In a (anchors Pages.high_card)
       /\ Pages.urljoin (lit "https://a.com")
            (get_or_empty (self a) "href")
          = Ok (lit "https://a.com/p/trail")
       /\ (any_in link_skip_words (lower (get_or_empty (self a) "href"))
           = true ->
           hd_error (anchors Pages.high_card) = Some a).
Proof.
  assert (find_product_link Pages.urljoin Pages.high_card
            (lit "https://a.com")
          = Ok (Some (lit "https://a.com/p/trail"))) as H
    by (vm_compute; reflexivity).
  split; [exact H | exact (find_product_link_source _ _ _ _ H)].
Defined.

Lemma keyword_score_bound (classes elem_id data_attrs : str)
  (keywords : list str) (start : nat) :
  (fold_left
     (fun score keyword =>
        score
        + (if contains keyword classes then 3 else 0)
        + (if contains keyword elem_id then 2 else 0)
        + (if contains keyword data_attrs then 2 else 0))
     keywords start
   <= start + 7 * length keywords)%nat.
Proof.
  revert start; induction keywords as [|k ks IH]; intros start; simpl;
    [lia|].
  etransitivity; [apply IH|].
  destruct (contains k classes), (contains k elem_id),
    (contains k data_attrs); lia.
Qed.

(** The score of an element is at most 35, and 0 when its tag is not one
    of div, article, li, section and a; so only those tags can reach the
    threshold of 5. *)
Theorem score_as_product_container_bounds (element : node) :
  (score_as_product_container element <= 35)%nat
  /\ (named_in eligible_tags element = false ->
      score_as_product_container element = 0%nat)
  /\ ((5 <= score_as_product_container element)%nat ->
      named_in eligible_tags element = true).
Proof.
  assert (named_in eligible_tags element = false ->
          score_as_product_container element = 0%nat) as Hzero.
  { intros Hn; unfold score_as_product_container.
    destruct (name element); [reflexivity|].
    rewrite Hn; reflexivity. }
  split; [|split; [exact Hzero|]].
  - unfold score_as_product_container.
    destruct (name element); [lia|].
    destruct (negb (named_in eligible_tags element)); [lia|].
    cbv zeta.
    match goal with
    | |- context [fold_left ?f product_keywords 0%nat] =>
        pose proof (keyword_score_bound
                      (lower (join (lit " ") (get_class element)))
                      (lower (get_or_empty element "id"))
                      (join (lit " ")
                         (map (fun kv => lower (snd kv))
                            (filter
                               (fun kv => startswith (fst kv) (lit "data-"))
                               (attrs element))))
                      product_keywords 0) as Hk;
        change (length product_keywords) with 4%nat in Hk
    end.
    destruct (anchors element), (find_all (named "img") element),
      (has_currency (get_text element)),
      (Nat.ltb 5 (length (strip (get_text element)))); lia.
  - intros Hs; destruct (named_in eligible_tags element) eqn:Hn;
      [reflexivity|].
    rewrite (Hzero eq_refl) in Hs; lia.
Qed.

(* ================================================================= *)
(** ** The containers of the structural pass *)

Lemma extract_fields_length (urljoin : str -> str -> result str)
  (base_url domain : str) (containers : list element) (seen : list str) :
  (length (extract_fields urljoin base_url domain containers seen)
   <= length containers)%nat.
Proof.
  revert seen; induction containers as [|c cs IH]; intros seen; simpl;
    [lia|].
  destruct (candidate_name (self c)) as [name|];
    [|specialize (IH seen); lia].
  destruct (mem (name_key name) seen); [specialize (IH seen); lia|].
  specialize (IH (name_key name :: seen)).
  destruct (find_product_link urljoin (self c) base_url); simpl; lia.
Qed.

(** At most 300 containers reach the field locators; each is an element
    of the document with an eligible tag and a score of 5 or more, and
    no container among the candidates left out scores higher than one
    that was kept.  So the structural pass emits at most 300 records. *)
Theorem product_containers_bounds (soup : node) :
  (length (product_containers soup) <= 300)%nat
  /\ Forall (fun c =>
               In c (descendants soup)
               /\ named_in eligible_tags (self c) = true
               /\ (5 <= score_as_product_container (self c))%nat)
       (product_containers soup)
  /\ (forall kept left_out,
        In kept (firstn 300 (sort_scored (scored_elements soup))) ->
        In left_out (skipn 300 (sort_scored (scored_elements soup))) ->
        (fst left_out <= fst kept)%nat)
  /\ (forall urljoin base_url domain,
        (length (extract_fields urljoin base_url domain
                   (product_containers soup) []) <= 300)%nat).
Proof.
  assert (length (product_containers soup) <= 300)%nat as Hlen.
  { unfold product_containers; rewrite length_map, length_firstn; lia. }
  split; [exact Hlen|]; split; [|split].
  - apply Forall_forall; intros c Hc.
    unfold product_containers in Hc.
    apply in_map_iff in Hc; destruct Hc as ([s c'] & Heq & Hin).
    simpl in Heq; subst c'.
    assert (In (s, c) (scored_elements soup)) as Hs.
    { eapply Permutation_in; [symmetry; apply sort_scored_perm|].
      rewrite <- (firstn_skipn 300 (sort_scored (scored_elements soup))).
      apply in_or_app; left; exact Hin. }
    unfold scored_elements in Hs.
    apply filter_In in Hs; destruct Hs as [Hs H5].
    apply in_map_iff in Hs; destruct Hs as (e & Heq & He).
    inversion Heq; subst.
    apply find_all_descendant in He; destruct He as [Hd Hn].
    cbn [fst] in H5; apply Nat.leb_le in H5; repeat split; assumption.
  - intros kept left_out Hk Hl.
    pose proof (sort_scored_sorted (scored_elements soup)) as Hs.
    rewrite <- (firstn_skipn 300 (sort_scored (scored_elements soup)))
      in Hs.
    revert Hs Hk Hl.
    generalize (firstn 300 (sort_scored (scored_elements soup))) as l1.
    generalize (skipn 300 (sort_scored (scored_elements soup))) as l2.
    intros l2 l1; induction l1 as [|x l1 IH]; intros Hs Hk Hl;
      [destruct Hk|].
    simpl in Hs; inversion Hs as [|? ? Hs' Hall]; subst.
    destruct Hk as [<-|Hk]; [|apply IH; assumption].
    rewrite Forall_forall in Hall.
    apply (Hall left_out), in_or_app; right; exact Hl.
  - intros urljoin base_url domain.
    etransitivity; [apply extract_fields_length | exact Hlen].
Qed.

(* ================================================================= *)
(** ** The fallback pass *)

Lemma sorted_head_min (x : price) (l : list price) :
  StronglySorted Z.le (x :: l) -> Forall (fun p => (x <= p)%Z) (x :: l).
Proof.
  intros Hs; inversion Hs; subst; constructor; [lia | assumption].
Qed.

Lemma fallback_pair_min_max (prices : list price)
  (original : option price) (sale : price) :
  prices <> [] ->
  fallback_pair prices = (original, sale) ->
  In sale prices
  /\ Forall (fun p => (sale <= p)%Z) prices
  /\ match original with
     | None => length prices = 1%nat
     | Some o =>
         (2 <= length prices)%nat /\ In o prices
         /\ Forall (fun p => (p <= o)%Z) prices
     end.
Proof.
  intros Hne; unfold fallback_pair.
  destruct prices as [|a [|b l]]; [contradiction| |];
    intros H; inversion H; subst; clear H.
  - repeat split; [left; reflexivity | repeat constructor; simpl; lia].
  - pose proof (sort_prices_perm (a :: b :: l)) as Hperm.
    pose proof (sort_prices_sorted (a :: b :: l)) as Hsorted.
    destruct (sort_prices (a :: b :: l)) as [|x xs] eqn:Hx.
    { apply Permutation_length in Hperm; discriminate. }
    pose proof (sorted_head_min _ _ Hsorted) as Hmin.
    pose proof (sorted_last_max _ 0%Z Hsorted) as Hmax.
    assert (In (last (x :: xs) 0%Z) (x :: xs)) as Hlast.
    { destruct (exists_last (l:=x :: xs)) as [l' [z Hz]]; [discriminate|].
      rewrite Hz, last_last; apply in_or_app; right; left; reflexivity. }
    change (hd 0%Z (x :: xs)) with x.
    split; [eapply Permutation_in; [symmetry; exact Hperm | left; reflexivity]|].
    split; [eapply Permutation_Forall; [symmetry; exact Hperm | exact Hmin]|].
    split; [simpl; lia|].
    split; [eapply Permutation_in; [symmetry; exact Hperm | exact Hlast]|].
    eapply Permutation_Forall; [symmetry; exact Hperm | exact Hmax].
Qed.

(** The prices of a fallback record: the sale price is always present
    and is the least of the prices found beside the anchor; the original
    price is absent when one price was found and is the greatest of them
    when more were found, so it is never below the sale price. *)
Theorem fallback_record_prices (urlparse : str -> result url_parts)
  (urljoin : str -> str -> result str) (base_url : str) (a : element)
  (r : product) :
  linked_by urlparse urljoin base_url a r ->
  exists sale,
    Sale_Price r = fmt_price sale
    /\ Sale_Price r <> NA
    /\ In sale (fallback_prices (get_text_sep_strip (parent a)))
    /\ Forall (fun p => (sale <= p)%Z)
         (fallback_prices (get_text_sep_strip (parent a)))
    /\ ((length (fallback_prices (get_text_sep_strip (parent a))) = 1%nat
         /\ Original_Price r = NA)
        \/ ((2 <= length (fallback_prices
                            (get_text_sep_strip (parent a))))%nat
            /\ exists original,
                 Original_Price r = fmt_price original
                 /\ In original
                      (fallback_prices (get_text_sep_strip (parent a)))
                 /\ Forall (fun p => (p <= original)%Z)
                      (fallback_prices (get_text_sep_strip (parent a))))).
Proof.
  intros [Hne Hr]; unfold fallback_product in Hr.
  destruct (fallback_pair _) as [original sale] eqn:Hp.
  destruct (fallback_pair_min_max _ _ _ Hne Hp) as (Hin & Hmin & Ho).
  destruct (fallback_pair_in_range _ _ _ Hne (fallback_prices_in_range _) Hp)
    as [Hro _].
  destruct (match get_or_empty (self a) "href" with
            | [] => Ok NA
            | _ => urljoin base_url (get_or_empty (self a) "href")
            end) as [full_link|]; [|discriminate].
  inversion Hr; subst; cbn [Sale_Price Original_Price].
  exists sale; split; [reflexivity|].
  split; [apply fmt_price_not_NA|].
  split; [exact Hin|]; split; [exact Hmin|].
  destruct original as [o|].
  - right; destruct Ho as (Hlen & Hoin & Hmax).
    split; [exact Hlen|]; exists o.
    split; [apply price_field_in_range, Hro; reflexivity|].
    split; assumption.
  - left; split; [exact Ho | reflexivity].
Qed.

Lemma fallback_record_prices_example :
  linked_by Pages.urlparse Pages.urljoin [] Samples.two_prices_anchor
    (Pages.row "Trail Runner Boot" "/x" "$120.00" "$89.99" "25.0%" "N/A")
  /\ fallback_prices
       (get_text_sep_strip (parent Samples.two_prices_anchor))
     = [8999%Z; 12000%Z]
  /\ exists sale,
       Sale_Price
         (Pages.row "Trail Runner Boot" "/x" "$120.00" "$89.99" "25.0%"
            "N/A") = fmt_price sale
       /\ In sale
            (fallback_prices
               (get_text_sep_strip (parent Samples.two_prices_anchor))).
Proof.
  assert (linked_by Pages.urlparse Pages.urljoin [] Samples.two_prices_anchor
            (Pages.row "Trail Runner Boot" "/x" "$120.00" "$89.99" "25.0%"
               "N/A")) as H.
  { unfold linked_by; split; [vm_compute; discriminate|].
    vm_compute; reflexivity. }
  split; [exact H|]; split; [vm_compute; reflexivity|].
  destruct (fallback_record_prices _ _ _ _ _ H) as (sale & Hs & _ & Hin & _).
  exists sale; split; assumption.
Defined.

Lemma prices_eqb_refl (ps : list price) : prices_eqb ps ps = true.
Proof.
  induction ps as [|p ps IH]; simpl; [reflexivity|].
  rewrite Z.eqb_refl; exact IH.
Qed.

Lemma fallback_loop_sources (urlparse : str -> result url_parts)
  (urljoin : str -> str -> result str) (base_url : str)
  (links : list element) (seen : list (list price)) :
  exists picked,
    subsequence picked links
    /\ Forall2 (linked_by urlparse urljoin base_url) picked
         (fallback_loop urlparse urljoin base_url links seen)
    /\ Forall (fun a =>
                 any_in link_skip_words
                   (lower (get_or_empty (self a) "href")) = false
                 /\ existsb (prices_eqb (price_tuple a)) seen = false)
         picked
    /\ NoDup (map price_tuple picked).
Proof.
  revert seen; induction links as [|a links IH]; intros seen;
    cbn [fallback_loop].
  - exists []; repeat split; constructor.
  - assert (forall seen',
              (forall x, existsb (prices_eqb x) seen' = false ->
                         existsb (prices_eqb x) seen = false) ->
              exists picked,
                subsequence picked (a :: links)
                /\ Forall2 (linked_by urlparse urljoin base_url) picked
                     (fallback_loop urlparse urljoin base_url links seen')
                /\ Forall (fun a =>
                             any_in link_skip_words
                               (lower (get_or_empty (self a) "href")) = false
                             /\ existsb (prices_eqb (price_tuple a)) seen
                                = false)
                     picked
                /\ NoDup (map price_tuple picked)) as Hskip.
    { intros seen' Hmono.
      destruct (IH seen') as (picked & Hs & Hf & Ha & Hn).
      exists picked; split; [constructor; exact Hs|].
      split; [exact Hf|]; split; [|exact Hn].
      eapply Forall_impl; [|exact Ha].
      intros x [Hx1 Hx2]; split; [exact Hx1 | apply Hmono, Hx2]. }
    assert (forall x, existsb (prices_eqb x)
                        (price_tuple a :: seen) = false ->
                      existsb (prices_eqb x) seen = false) as Hmono.
    { intros x Hx; simpl in Hx; apply orb_false_iff in Hx; apply Hx. }
    destruct (any_in link_skip_words
                (lower (get_or_empty (self a) "href"))) eqn:Hskipped;
      [apply Hskip; auto|].
    destruct (fallback_prices (get_text_sep_strip (parent a)))
      as [|p ps] eqn:Hp; [apply Hskip; auto|].
    destruct (existsb (prices_eqb (sort_prices (p :: ps))) seen) eqn:Hseen;
      [apply Hskip; auto|].
    assert (sort_prices (p :: ps) = price_tuple a) as Htuple
      by (unfold price_tuple; rewrite Hp; reflexivity).
    rewrite Htuple in *.
    destruct (fallback_product urlparse urljoin base_url a (p :: ps))
      as [r|] eqn:Hr; [|apply Hskip; exact Hmono].
    destruct (IH (price_tuple a :: seen)) as (picked & Hs & Hf & Ha & Hn).
    exists (a :: picked); split; [constructor; exact Hs|].
    split; [constructor; [|exact Hf]|].
    { unfold linked_by; rewrite Hp; split; [discriminate | exact Hr]. }
    split.
    + constructor; [split; assumption|].
      eapply Forall_impl; [|exact Ha].
      intros x [Hx1 Hx2]; split; [exact Hx1 | apply Hmono, Hx2].
    + simpl; constructor; [|exact Hn].
      intros Hin; apply in_map_iff in Hin.
      destruct Hin as (x & Hx & Hxin).
      rewrite Forall_forall in Ha; destruct (Ha x Hxin) as [_ Hx2].
      simpl in Hx2; rewrite Hx, prices_eqb_refl in Hx2; discriminate.
Qed.

(** The records of the fallback come, in document order, from anchors
    whose href is not on the skip list, whose parent's text holds a price
    strictly between 5 and 2000, and whose sorted price tuples are
    pairwise distinct: a later anchor with the prices of an earlier one
    gives no record. *)
Theorem fallback_records_sources (urlparse : str -> result url_parts)
  (urljoin : str -> str -> result str) (soup : node) (base_url : str) :
  exists picked,
    subsequence picked (anchors soup)
    /\ Forall2 (linked_by urlparse urljoin base_url) picked
         (extract_products_from_price_patterns urlparse urljoin soup
            base_url)
    /\ Forall (fun a =>
                 any_in link_skip_words
                   (lower (get_or_empty (self a) "href")) = false)
         picked
    /\ NoDup (map price_tuple picked).
Proof.
  destruct (fallback_loop_sources urlparse urljoin base_url (anchors soup) [])
    as (picked & Hs & Hf & Ha & Hn).
  exists picked; repeat split; try assumption.
  eapply Forall_impl; [|exact Ha]; intros a [H _]; exact H.
Qed.

Lemma fallback_name_length (urlparse : str -> result url_parts)
  (base_url : str) (link : element) (sale_price : price) :
  (5 <= length (fallback_name urlparse base_url link sale_price))%nat.
Proof.
  unfold fallback_name.
  destruct (first_of _) as [n|].
  - destruct (Nat.ltb (length n) 5) eqn:Hn;
      [|apply Nat.ltb_ge in Hn; exact Hn].
    rewrite !length_app.
    change (length (lit " Footwear - ")) with 12%nat; lia.
  - rewrite !length_app.
    change (length (lit " Footwear - ")) with 12%nat; lia.
Qed.

Lemma candidate_name_accepted (container : node) (name : str) :
  candidate_name container = Some name ->
  find_product_name container = Some name
  /\ is_invalid_product_name name = false
  /\ is_non_footwear_item name = false.
Proof.
  unfold candidate_name.
  destruct (find_product_name container) as [n|]; [|discriminate].
  destruct (Nat.ltb (length n) 5); [discriminate|].
  destruct (is_invalid_product_name n) eqn:Hi; [discriminate|].
  destruct (is_non_footwear_item n) eqn:Hf; [discriminate|].
  intros H; inversion H; subst; repeat split; assumption.
Qed.

(** On a page of ASCII text the name of every emitted record has at
    least 5 characters.  A record of the structural pass carries the name
    the locator found in its container, of 10 to 250 characters, which
    both name validators accept; a record of the fallback comes from an
    anchor of the document. *)
Theorem record_names_accepted
  (urlparse : str -> result url_parts) (urljoin : str -> str -> result str)
  (soup : node) (html source_url : str)
  (products : list product) (promos : list str) (r : product) :
  ascii_page soup = true ->
  parse_products_universal urlparse urljoin soup html source_url
  = Ok (products, promos) ->
  In r products ->
  (5 <= length (Product_Name r))%nat
  /\ ((exists c,
         In c (product_containers soup)
         /\ find_product_name (self c) = Some (Product_Name r)
         /\ (10 <= length (Product_Name r) <= 250)%nat
         /\ is_invalid_product_name (Product_Name r) = false
         /\ is_non_footwear_item (Product_Name r) = false)
      \/ (exists a base,
            In a (anchors soup)
            /\ linked_by urlparse urljoin base a r)).
Proof.
  intros _ H Hin.
  destruct (parse_products_universal_cases _ _ _ _ _ _ _ H)
    as (base & _ & _ & Hcase).
  destruct Hcase as [[_ ->]|[_ ->]].
  - destruct (extract_fields_trace urljoin base
                (get_domain urlparse source_url)
                (product_containers soup) []) as (picked & Hs & Hf).
    destruct (Forall2_In_right _ _ _ _ Hf Hin)
      as (c & Hc & name & link & Hn & _ & ->).
    rewrite container_record_name.
    destruct (candidate_name_accepted _ _ Hn) as (Hfind & Hi & Hnf).
    destruct (find_product_name_found _ _ Hfind) as [Hlen _].
    split; [lia|]; left.
    exists c; split; [eapply subsequence_In; eassumption|].
    repeat split; try assumption; lia.
  - destruct (fallback_loop_trace urlparse urljoin
                (match base with [] => source_url | _ => base end)
                (anchors soup) []) as (picked & Hs & Hf).
    destruct (Forall2_In_right _ _ _ _ Hf Hin) as (a & Ha & Hl).
    split.
    + destruct Hl as [_ Hr]; unfold fallback_product in Hr.
      destruct (fallback_pair _) as [o s].
      destruct (match get_or_empty (self a) "href" with
                | [] => Ok NA
                | _ => urljoin _ (get_or_empty (self a) "href")
                end); [|discriminate].
      inversion Hr; subst; simpl; apply fallback_name_length.
    + right; exists a, (match base with [] => source_url | _ => base end).
      split; [eapply subsequence_In; eassumption | exact Hl].
Qed.

Lemma record_names_accepted_example :
  ascii_page (soup [Pages.listing_a; Pages.listing_b]) = true
  /\ parse_products_universal Pages.urlparse Pages.urljoin
       (soup [Pages.listing_a; Pages.listing_b]) Pages.listings_html []
     = Ok ([ Pages.row "Trail Runner Boot" "/x" "N/A" "$89.99" "N/A" "N/A";
             Pages.row "Trail Runner Boot" "/y" "N/A" "$59.99" "N/A" "N/A" ],
           [])
  /\ (5 <= length (lit "Trail Runner Boot"))%nat.
Proof.
  assert (ascii_page (soup [Pages.listing_a; Pages.listing_b]) = true)
    as Ha by (vm_compute; reflexivity).
  assert (parse_products_universal Pages.urlparse Pages.urljoin
            (soup [Pages.listing_a; Pages.listing_b]) Pages.listings_html []
          = Ok ([ Pages.row "Trail Runner Boot" "/x" "N/A" "$89.99" "N/A"
                    "N/A";
                  Pages.row "Trail Runner Boot" "/y" "N/A" "$59.99" "N/A"
                    "N/A" ], [])) as H
    by (vm_compute; reflexivity).
  split; [exact Ha|]; split; [exact H|].
  exact (proj1 (record_names_accepted _ _ _ _ _ _ _ _ Ha H
                  (or_introl eq_refl))).
Defined.

(* ================================================================= *)
(** ** The promotion list has no duplicate *)

Lemma distinct_NoDup (xs : list str) : NoDup (distinct xs).
Proof.
  induction xs as [|x xs IH]; simpl; constructor.
  - intros Hin; apply filter_In in Hin; destruct Hin as [_ Hx].
    assert (str_eqb x x = true) as He by (apply str_eqb_eq; reflexivity).
    rewrite He in Hx; discriminate.
  - apply NoDup_filter, IH.
Qed.

Lemma insert_desc_perm (x : str) (xs : list str) :
  Permutation (x :: xs) (insert_desc x xs).
Proof.
  induction xs as [|y ys IH]; simpl; [reflexivity|].
  destruct (str_ltb x y); [|reflexivity].
  rewrite perm_swap; constructor; exact IH.
Qed.

Lemma sorted_desc_perm (xs : list str) : Permutation xs (sorted_desc xs).
Proof.
  induction xs as [|x xs IH]; simpl; [reflexivity|].
  rewrite <- insert_desc_perm; constructor; exact IH.
Qed.

Lemma NoDup_prefix {A : Type} (n : nat) (l : list A) :
  NoDup l -> NoDup (firstn n l).
Proof.
  intros H; rewrite <- (firstn_skipn n l) in H.
  apply NoDup_app_remove_r in H; exact H.
Qed.

Lemma NoDup_map_injective {A B : Type} (f : A -> B) (l : list A) :
  (forall x y, f x = f y -> x = y) -> NoDup l -> NoDup (map f l).
Proof.
  intros Hinj; induction 1 as [|x l Hx _ IH]; simpl; constructor;
    [|exact IH].
  intros Hin; apply in_map_iff in Hin; destruct Hin as (y & Hy & Hin).
  apply Hinj in Hy; subst; contradiction.
Qed.

Lemma NoDup_app_apart {A : Type} (P Q : A -> Prop) (l1 l2 : list A) :
  NoDup l1 -> NoDup l2 -> Forall P l1 -> Forall Q l2 ->
  (forall x, P x -> Q x -> False) -> NoDup (l1 ++ l2).
Proof.
  intros H1 H2 HP HQ Hapart; apply NoDup_app; [exact H1 | exact H2|].
  rewrite Forall_forall in HP, HQ.
  intros x Hx1 Hx2; exact (Hapart x (HP x Hx1) (HQ x Hx2)).
Qed.

Lemma last_of_app (l l' : str) (d : char) :
  l' <> [] -> last (l ++ l') d = last l' d.
Proof.
  intros Hne; induction l as [|x l IH]; [reflexivity|].
  simpl app; destruct (l ++ l') as [|y t] eqn:He.
  - destruct l; [simpl in He; contradiction | discriminate].
  - exact IH.
Qed.

(** The promotion list holds no entry twice. *)
Theorem site_promotions_distinct (html_content : str) :
  NoDup (extract_site_promotions html_content).
Proof.
  unfold extract_site_promotions; apply NoDup_prefix.
  set (ends k (s : str) := last s 0%N = k).
  assert (forall xs,
            NoDup xs ->
            NoDup (map (fun amount =>
                          lit "Free Shipping: $" ++ amount ++ lit "+") xs)
            /\ Forall (ends 43%N)
                 (map (fun amount =>
                         lit "Free Shipping: $" ++ amount ++ lit "+") xs))
    as Hfree.
  { intros xs Hxs; split.
    - apply NoDup_map_injective; [|exact Hxs].
      intros x y Hxy; cbv beta in Hxy.
      apply app_inv_head in Hxy; apply app_inv_tail in Hxy; exact Hxy.
    - apply Forall_forall; intros s Hs.
      apply in_map_iff in Hs; destruct Hs as (x & <- & _).
      unfold ends; rewrite app_assoc.
      rewrite last_of_app by (vm_compute; discriminate); reflexivity. }
  assert (forall xs,
            NoDup xs ->
            NoDup (map (fun percent => percent ++ lit "% Off") xs)
            /\ Forall (ends 102%N)
                 (map (fun percent => percent ++ lit "% Off") xs))
    as Hpct.
  { intros xs Hxs; split.
    - apply NoDup_map_injective; [|exact Hxs].
      intros x y Hxy; cbv beta in Hxy.
      apply app_inv_tail in Hxy; exact Hxy.
    - apply Forall_forall; intros s Hs.
      apply in_map_iff in Hs; destruct Hs as (x & <- & _).
      unfold ends.
      rewrite last_of_app by (vm_compute; discriminate); reflexivity. }
  destruct (Hfree _ (distinct_NoDup
                       (findall true free_ship_pattern html_content)))
    as [Hf1 Hf2].
  destruct (Hpct (firstn 3
                    (sorted_desc
                       (distinct
                          (findall true percent_pattern html_content)))))
    as [Hp1 Hp2].
  { apply NoDup_prefix.
    eapply Permutation_NoDup; [apply sorted_desc_perm|].
    apply distinct_NoDup. }
  assert (forall (b : bool) (s : str),
            NoDup (if b then [s] else [])
            /\ Forall (ends (last s 0%N)) (if b then [s] else [])) as Hone.
  { intros [] s; split; repeat constructor; intros []. }
  destruct (Hone (search true clearance_pattern html_content)
              (lit "Clearance Available")) as [Hc1 Hc2].
  destruct (Hone (search true select_styles_pattern html_content)
              (lit "Sale on Select Styles")) as [Hs1 Hs2].
  change (last (lit "Clearance Available") 0%N) with 101%N in Hc2.
  change (last (lit "Sale on Select Styles") 0%N) with 115%N in Hs2.
  apply NoDup_app_apart
    with (P := fun s => ends 43%N s \/ ends 102%N s \/ ends 101%N s)
         (Q := ends 115%N); [|exact Hs1| |exact Hs2|].
  - apply NoDup_app_apart
      with (P := fun s => ends 43%N s \/ ends 102%N s)
           (Q := ends 101%N); [|exact Hc1| |exact Hc2|].
    + apply NoDup_app_apart with (P := ends 43%N) (Q := ends 102%N);
        try assumption.
      unfold ends; intros x Hx Hy; rewrite Hx in Hy; discriminate.
    + apply Forall_app; split;
        (eapply Forall_impl; [|eassumption]); auto.
    + unfold ends; intros x [Hx|Hx] Hy; rewrite Hx in Hy; discriminate.
  - apply Forall_app; split; [apply Forall_app; split|];
      (eapply Forall_impl; [|eassumption]); auto.
  - unfold ends; intros x [Hx|[Hx|Hx]] Hy; rewrite Hx in Hy; discriminate.
Qed.

(* ================================================================= *)
(** ** Rendered prices are read back *)

Ltac settle_tests :=
  repeat match goal with
  | |- context [(?a <=? ?b)%N] =>
      first [ rewrite (proj2 (N.leb_le a b)) by lia
            | rewrite (proj2 (N.leb_gt a b)) by lia ]
  | |- context [(?a =? ?b)%N] =>
      first [ rewrite (proj2 (N.eqb_neq a b)) by lia
            | rewrite (proj2 (N.eqb_eq a b)) by lia ]
  end.

Lemma is_digit_range (x : char) :
  is_digit x = true <-> (48 <= x <= 57)%N.
Proof.
  unfold is_digit; rewrite andb_true_iff, !N.leb_le; tauto.
Qed.

Lemma digit_not_space (x : char) : is_digit x = true -> is_space x = false.
Proof.
  intros H; apply is_digit_range in H.
  unfold is_space; settle_tests; reflexivity.
Qed.

Lemma digit_is_word (x : char) : is_digit x = true -> is_word x = true.
Proof.
  intros H; unfold is_word; rewrite H; apply orb_true_iff; left.
  apply orb_true_r.
Qed.

Section Respelling.
Variable sigma : char -> char.
Hypothesis sigma_digit :
  forall x, is_digit x = true -> is_digit (sigma x) = true.
Hypothesis sigma_other : forall x, is_digit x = false -> sigma x = x.

Lemma sigma_class (p : char -> bool) (x : char) :
  (forall a b, is_digit a = true -> is_digit b = true -> p a = p b) ->
  p (sigma x) = p x.
Proof.
  intros Hp; destruct (is_digit x) eqn:H.
  - apply Hp; [apply sigma_digit, H | exact H].
  - rewrite (sigma_other x H); reflexivity.
Qed.

Lemma sigma_is_space (x : char) : is_space (sigma x) = is_space x.
Proof.
  apply sigma_class; intros a b Ha Hb.
  rewrite !digit_not_space by assumption; reflexivity.
Qed.

Lemma sigma_is_word (x : char) : is_word (sigma x) = is_word x.
Proof.
  apply sigma_class; intros a b Ha Hb.
  rewrite !digit_is_word by assumption; reflexivity.
Qed.

Lemma sigma_eqb (c x : char) :
  is_digit c = false -> N.eqb c (sigma x) = N.eqb c x.
Proof.
  intros Hc; destruct (is_digit x) eqn:H.
  - assert (N.eqb c x = false) as ->
      by (apply N.eqb_neq; intros ->; congruence).
    apply N.eqb_neq; intros ->.
    rewrite (sigma_digit x H) in Hc; discriminate.
  - rewrite (sigma_other x H); reflexivity.
Qed.

Lemma at_word_map (c : option char) :
  at_word (option_map sigma c) = at_word c.
Proof. destruct c; [apply sigma_is_word | reflexivity]. Qed.

(** A digit-blind pattern matches a respelled text as it matches the
    text, and captures the respelled group. *)
Lemma run_respelled (r : regex) :
  digit_blind r ->
  forall (A B : Type) (g : A -> B) (k : cursor -> option A)
         (k' : cursor -> option B) (cu : cursor),
    (forall cu0, k' (cursor_map sigma cu0) = option_map g (k cu0)) ->
    run false r k' (cursor_map sigma cu) = option_map g (run false r k cu).
Proof.
  induction 1 as [|c Hc|p Hp|a b _ IHa _ IHb|a b _ IHa _ IHb|r lo hi _ IH
                 |r _ IH| |]; intros A B g k k' cu Hk;
    [| | | | |rewrite !run_rep| | |]; cbn [run].
  - apply Hk.
  - destruct cu as [pv [|x s] gr]; cbn [cursor_map rest map grp prev];
      [reflexivity|].
    unfold chr_ok; rewrite (sigma_eqb c x Hc).
    destruct (N.eqb c x); [|reflexivity].
    apply (Hk (Cursor (Some x) s gr)).
  - destruct cu as [pv [|x s] gr]; cbn [cursor_map rest map grp prev];
      [reflexivity|].
    rewrite (sigma_class p x Hp).
    destruct (p x); [|reflexivity].
    apply (Hk (Cursor (Some x) s gr)).
  - apply IHa; intros cu0; apply IHb, Hk.
  - rewrite (IHa A B g k k' cu Hk).
    destruct (run false a k cu); [reflexivity|].
    apply IHb, Hk.
  - generalize 0%nat as n.
    cbn [cursor_map rest]; rewrite length_map.
    generalize (S (length (rest cu))) as fuel.
    intros fuel; revert cu.
    induction fuel as [|fuel IHf]; intros cu n; [reflexivity|].
    cbn [rep_loop];
      fold (rep_loop false r lo hi k); fold (rep_loop false r lo hi k').
    assert ((if below n hi
             then run false r
                    (fun cu' =>
                       if Nat.ltb (length (rest cu'))
                            (length (rest (cursor_map sigma cu)))
                       then rep_loop false r lo hi k' fuel (S n) cu'
                       else None)
                    (cursor_map sigma cu)
             else None)
            = option_map g
                (if below n hi
                 then run false r
                        (fun cu' =>
                           if Nat.ltb (length (rest cu')) (length (rest cu))
                           then rep_loop false r lo hi k fuel (S n) cu'
                           else None)
                        cu
                 else None)) as Hagain.
    { destruct (below n hi); [|reflexivity].
      apply IH; intros cu0.
      cbn [cursor_map rest]; rewrite !length_map.
      destruct (Nat.ltb _ _); [apply IHf | reflexivity]. }
    rewrite Hagain; clear Hagain.
    match goal with
    | |- context [option_map g ?x] => destruct x; [reflexivity|]
    end.
    cbn [option_map].
    destruct (Nat.leb lo n); [apply Hk | reflexivity].
  - apply IH; intros cu0.
    cbn [cursor_map rest prev]; rewrite !length_map, firstn_map.
    apply (Hk (Cursor (prev cu0) (rest cu0)
                 (Some (firstn (length (rest cu) - length (rest cu0))
                          (rest cu))))).
  - destruct cu as [[pv|] s gr]; cbn [cursor_map prev option_map];
      [reflexivity|].
    apply (Hk (Cursor None s gr)).
  - cbn [cursor_map prev rest].
    rewrite at_word_map.
    assert (hd_error (map sigma (rest cu)) = option_map sigma (hd_error (rest cu)))
      as -> by (destruct (rest cu); reflexivity).
    rewrite at_word_map.
    destruct (xorb _ _); [apply Hk | reflexivity].
Qed.

Lemma exec_respelled (r : regex) (cu : cursor) :
  digit_blind r ->
  exec false r (cursor_map sigma cu)
  = option_map (cursor_map sigma) (exec false r cu).
Proof.
  intros Hr; unfold exec.
  apply (run_respelled r Hr); intros cu0; reflexivity.
Qed.

Lemma findall_respelled (r : regex) (s : str) :
  digit_blind r ->
  findall false r (map sigma s) = map (map sigma) (findall false r s).
Proof.
  intros Hr; unfold findall; rewrite length_map.
  generalize (S (length s)) as fuel.
  change (@None char) with (option_map sigma None) at 1.
  generalize (@None char) as p.
  intros p fuel; revert p s.
  induction fuel as [|fuel IH]; intros p s; [reflexivity|].
  cbn [findall_from].
  change (Cursor (option_map sigma p) (map sigma s) None)
    with (cursor_map sigma (Cursor p s None)).
  rewrite (exec_respelled r _ Hr).
  assert (match map sigma s with
          | [] => []
          | c :: s' => findall_from fuel false r (Some c) s'
          end
          = map (map sigma)
              match s with
              | [] => []
              | c :: s' => findall_from fuel false r (Some c) s'
              end) as Hstep.
  { destruct s as [|c s]; [reflexivity|].
    cbn [map]; apply (IH (Some c) s). }
  destruct (exec false r (Cursor p s None)) as [cu'|];
    cbn [option_map]; [|exact Hstep].
  cbn [cursor_map rest prev grp]; rewrite !length_map, firstn_map.
  destruct (grp cu'); cbn [option_map];
    (destruct (Nat.ltb _ _); cbn [map]; f_equal; [apply IH | exact Hstep]).

Qed.

Lemma lstrip_respelled (s : str) :
  lstrip (map sigma s) = map sigma (lstrip s).
Proof.
  induction s as [|c s IH]; [reflexivity|].
  cbn [map lstrip]; rewrite sigma_is_space.
  destruct (is_space c); [exact IH | reflexivity].
Qed.

Lemma strip_respelled (s : str) :
  strip (map sigma s) = map sigma (strip s).
Proof.
  unfold strip, rstrip.
  rewrite lstrip_respelled, <- map_rev, lstrip_respelled, map_rev.
  reflexivity.
Qed.

Lemma startswith_respelled (sub s : str) :
  no_digit sub = true ->
  startswith (map sigma s) sub = startswith s sub.
Proof.
  revert s; induction sub as [|x sub IH]; intros s H;
    [destruct s; reflexivity|].
  cbn [no_digit forallb] in H; apply andb_true_iff in H.
  destruct H as [Hx Hsub]; apply negb_true_iff in Hx.
  destruct s as [|c s]; [reflexivity|].
  cbn [map startswith].
  rewrite (sigma_eqb x c Hx), (IH s Hsub); reflexivity.
Qed.

Lemma contains_respelled (sub s : str) :
  no_digit sub = true ->
  contains sub (map sigma s) = contains sub s.
Proof.
  intros H; induction s as [|c s IH].
  - reflexivity.
  - cbn [map contains].
    change (sigma c :: map sigma s) with (map sigma (c :: s)).
    rewrite (startswith_respelled sub (c :: s) H), IH; reflexivity.
Qed.

Lemma replace_respelled (old s : str) :
  no_digit old = true ->
  replace old [] (map sigma s) = map sigma (replace old [] s).
Proof.
  intros H; unfold replace; destruct old as [|o old]; [reflexivity|].
  rewrite length_map.
  generalize (length s) as fuel; intros fuel; revert s.
  induction fuel as [|fuel IH]; intros s; [reflexivity|].
  destruct s as [|c s]; [reflexivity|].
  cbn [replace_fuel].
  change (map sigma (c :: s)) with (sigma c :: map sigma s).
  cbv iota.
  change (sigma c :: map sigma s) with (map sigma (c :: s)).
  rewrite (startswith_respelled (o :: old) (c :: s) H).
  destruct (startswith (c :: s) (o :: old)).
  - cbn [app]; rewrite skipn_map; apply IH.
  - cbn [map]; f_equal; apply IH.
Qed.

Lemma clean_respelled (m : str) :
  clean (map sigma m) = map sigma (clean m).
Proof.
  unfold clean.
  rewrite (replace_respelled (lit ",") m eq_refl).
  apply (replace_respelled (lit " ") _ eq_refl).
Qed.


(** The first price pattern on a respelled text whose shape passes the
    gates of the extractor. *)
Lemma extract_respelled (s m : str) (v : price) :
  digit_blind (hd Eps price_patterns) ->
  s <> [] ->
  strip s = s ->
  contains sym_dollar s = true ->
  findall false (hd Eps price_patterns) s = [m] ->
  float (map sigma (clean m)) = Some v ->
  in_range v = true ->
  extract_price_bulletproof (map sigma s) = Some v.
Proof.
  intros Hb Hs Hstrip Hdollar Hfind Hfloat Hrange.
  unfold extract_price_bulletproof.
  destruct (map sigma s) eqn:Hmap;
    [destruct s; [congruence | discriminate]|].
  rewrite <- Hmap; clear Hmap.
  rewrite strip_respelled, Hstrip.
  cbn [existsb].
  rewrite (contains_respelled sym_dollar s eq_refl), Hdollar.
  cbn [negb orb]; rewrite !andb_false_r.
  unfold price_patterns in *; cbn [hd] in *; cbn [try_patterns].
  rewrite (findall_respelled _ s Hb), Hfind.
  cbn [map first_in_range].
  rewrite clean_respelled, Hfloat, Hrange; reflexivity.
Qed.

Lemma fallback_respelled (s m : str) (v : price) :
  Forall digit_blind fallback_patterns ->
  map (fun pattern => findall false pattern s) fallback_patterns
  = [[]; [m]; []] ->
  float (map sigma (clean m)) = Some v ->
  ((500 <? v) && (v <? 200000))%Z = true ->
  fallback_prices (map sigma s) = [v].
Proof.
  intros Hb Hfind Hfloat Hrange.
  unfold fallback_prices, fallback_patterns in *.
  cbn [cat] in *; cbn [map] in Hfind.
  injection Hfind as H1 H2 H3.
  inversion Hb as [|p1 l1 Hb1 Hb']; subst.
  inversion Hb' as [|p2 l2 Hb2 Hb'']; subst.
  inversion Hb'' as [|p3 l3 Hb3 _]; subst.
  cbn [flat_map].
  rewrite (findall_respelled _ s Hb1), (findall_respelled _ s Hb2),
    (findall_respelled _ s Hb3), H1, H2, H3.
  cbn [map flat_map app].
  rewrite clean_respelled, Hfloat, Hrange; reflexivity.
Qed.

End Respelling.

Lemma digit_blind_digit : digit_blind digit.
Proof. apply db_cls; intros x y Hx Hy; rewrite Hx, Hy; reflexivity. Qed.

Lemma digit_blind_space : digit_blind space.
Proof.
  apply db_cls; intros x y Hx Hy.
  rewrite !digit_not_space by assumption; reflexivity.
Qed.

Lemma digit_blind_cents : digit_blind cents.
Proof.
  apply db_seq; [apply db_chr; reflexivity|].
  apply db_rep, digit_blind_digit.
Qed.

Lemma first_price_pattern_blind : digit_blind (hd Eps price_patterns).
Proof.
  unfold price_patterns; cbn [hd cat].
  apply db_seq; [apply db_chr; reflexivity|].
  apply db_seq; [apply db_rep, digit_blind_space|].
  apply db_grp, db_seq; [|apply digit_blind_cents].
  apply db_seq; [apply db_rep, digit_blind_digit|].
  apply db_rep, db_seq; [apply db_chr; reflexivity|].
  apply db_rep, digit_blind_digit.
Qed.

Lemma fallback_patterns_blind : Forall digit_blind fallback_patterns.
Proof.
  pose proof digit_blind_digit as Hd.
  pose proof digit_blind_space as Hs.
  pose proof digit_blind_cents as Hc.
  unfold fallback_patterns; repeat apply Forall_cons; try apply Forall_nil;
    cbn [cat word map lit].
  - apply db_seq; [apply db_grp, db_seq; [apply db_rep, Hd | exact Hc]|].
    apply db_seq; [apply db_rep, Hs|].
    repeat (apply db_seq || (apply db_chr; reflexivity)).
  - apply db_seq; [apply db_chr; reflexivity|].
    apply db_seq; [apply db_rep, Hs|].
    apply db_grp, db_seq; [apply db_rep, Hd | exact Hc].
  - apply db_grp.
    apply db_seq; [apply db_rep, Hd|].
    apply db_seq; [apply db_chr; reflexivity|].
    apply db_seq; [apply db_rep, Hd | exact Hc].
Qed.

Lemma respell_digit (ds : str) (x : char) :
  forallb is_digit ds = true ->
  is_digit x = true -> is_digit (respell ds x) = true.
Proof.
  intros Hds Hx; unfold respell; rewrite Hx.
  destruct (nth_in_or_default (N.to_nat (x - 48)) ds x) as [Hin| ->];
    [|exact Hx].
  apply (proj1 (forallb_forall _ _) Hds _ Hin).
Qed.

Lemma respell_other (ds : str) (x : char) :
  is_digit x = false -> respell ds x = x.
Proof. intros Hx; unfold respell; rewrite Hx; reflexivity. Qed.

Lemma split_on_from_plain (sep : char) (s cur : str) :
  forallb (fun c => negb (N.eqb c sep)) s = true ->
  split_on_from sep cur s = [rev cur ++ s].
Proof.
  revert cur; induction s as [|c s IH]; intros cur H.
  - cbn [split_on_from]; rewrite app_nil_r; reflexivity.
  - cbn [forallb] in H; apply andb_true_iff in H; destruct H as [Hc Hs].
    apply negb_true_iff in Hc.
    cbn [split_on_from]; rewrite Hc, (IH (c :: cur) Hs).
    cbn [rev]; rewrite <- app_assoc; reflexivity.
Qed.

Lemma split_on_from_sep (sep : char) (s1 s2 cur : str) :
  forallb (fun c => negb (N.eqb c sep)) s1 = true ->
  split_on_from sep cur (s1 ++ sep :: s2)
  = (rev cur ++ s1) :: split_on_from sep [] s2.
Proof.
  revert cur; induction s1 as [|c s IH]; intros cur H.
  - cbn [app split_on_from]; rewrite N.eqb_refl, app_nil_r; reflexivity.
  - cbn [forallb] in H; apply andb_true_iff in H; destruct H as [Hc Hs].
    apply negb_true_iff in Hc.
    cbn [app split_on_from]; rewrite Hc, (IH (c :: cur) Hs).
    cbn [rev]; rewrite <- app_assoc; reflexivity.
Qed.

Lemma digits_not_point (s : str) :
  forallb is_digit s = true ->
  forallb (fun c => negb (N.eqb c 46)) s = true.
Proof.
  rewrite !forallb_forall; intros H c Hc.
  specialize (H c Hc); apply is_digit_range in H.
  apply negb_true_iff, N.eqb_neq; lia.
Qed.

(** [float] on digits, a point and two digits. *)
Lemma float_of_digits (ip fp : str) (v f : Z) :
  ip <> [] ->
  length fp = 2%nat ->
  forallb is_digit ip = true ->
  forallb is_digit fp = true ->
  digits_value 0 ip = Some v ->
  digits_value 0 fp = Some f ->
  float (ip ++ 46%N :: fp) = Some (100 * v + f)%Z.
Proof.
  intros Hne Hlen Hip Hfp Hv Hf; unfold float, split_on.
  assert (split_on_from 46 [] (ip ++ 46%N :: fp) = [ip; fp]) as ->.
  { etransitivity; [apply split_on_from_sep, digits_not_point, Hip|].
    cbn [rev app]; f_equal.
    apply (split_on_from_plain 46 fp []), digits_not_point, Hfp. }
  destruct ip as [|c ip]; [congruence|].
  rewrite Hlen, Hv, Hf; reflexivity.
Qed.

(** What [str] prints for the integers up to 2000 (by evaluation). *)
Lemma digits_table :
  forallb
    (fun i =>
       let s := digits (N.of_nat i) in
       Nat.leb 1 (length s) && Nat.leb (length s) 4 && forallb is_digit s
       && match digits_value 0 s with
          | Some v => (v =? Z.of_nat i)%Z
          | None => false
          end)
    (seq 0 2001) = true.
Proof. vm_compute; reflexivity. Qed.

Lemma two_digits_table :
  forallb
    (fun i =>
       let s := two_digits (Z.of_nat i) in
       Nat.eqb (length s) 2 && forallb is_digit s
       && match digits_value 0 s with
          | Some v => (v =? Z.of_nat i)%Z
          | None => false
          end)
    (seq 0 100) = true.
Proof. vm_compute; reflexivity. Qed.

Lemma digits_of_dollars (d : Z) :
  (0 <= d <= 2000)%Z ->
  (1 <= length (digits (Z.to_N d)) <= 4)%nat
  /\ forallb is_digit (digits (Z.to_N d)) = true
  /\ digits_value 0 (digits (Z.to_N d)) = Some d.
Proof.
  intros Hd.
  pose proof (proj1 (forallb_forall _ _) digits_table (Z.to_nat d)) as H.
  cbv beta zeta in H.
  replace (N.of_nat (Z.to_nat d)) with (Z.to_N d) in H by lia.
  rewrite Z2Nat.id in H by lia.
  specialize (H ltac:(apply in_seq; lia)).
  repeat (apply andb_true_iff in H; destruct H as [H ?]).
  apply Nat.leb_le in H.
  match goal with H' : Nat.leb _ 4 = true |- _ => apply Nat.leb_le in H' end.
  destruct (digits_value 0 (digits (Z.to_N d))) as [v|]; [|discriminate].
  match goal with H' : (v =? d)%Z = true |- _ => apply Z.eqb_eq in H' end.
  subst; auto.
Qed.

Lemma digits_of_cents (c : Z) :
  (0 <= c < 100)%Z ->
  length (two_digits c) = 2%nat
  /\ forallb is_digit (two_digits c) = true
  /\ digits_value 0 (two_digits c) = Some c.
Proof.
  intros Hc.
  pose proof (proj1 (forallb_forall _ _) two_digits_table (Z.to_nat c)) as H.
  cbv beta zeta in H.
  rewrite Z2Nat.id in H by lia.
  specialize (H ltac:(apply in_seq; lia)).
  repeat (apply andb_true_iff in H; destruct H as [H ?]).
  apply Nat.eqb_eq in H.
  destruct (digits_value 0 (two_digits c)) as [v|]; [|discriminate].
  match goal with H' : (v =? c)%Z = true |- _ => apply Z.eqb_eq in H' end.
  subst; auto.
Qed.

(** A dollar sign, one to four digits, a point and two digits: the
    extractor reads the number, and so does the fallback. *)
Lemma shaped_price_reads_back (ip fp : str) (v f : Z) :
  (1 <= length ip <= 4)%nat ->
  length fp = 2%nat ->
  forallb is_digit ip = true ->
  forallb is_digit fp = true ->
  digits_value 0 ip = Some v ->
  digits_value 0 fp = Some f ->
  (in_range (100 * v + f) = true ->
   extract_price_bulletproof (lit "$" ++ ip ++ lit "." ++ fp)
   = Some (100 * v + f)%Z)
  /\ (((500 <? 100 * v + f) && (100 * v + f <? 200000))%Z = true ->
      fallback_prices (lit "$" ++ ip ++ lit "." ++ fp) = [(100 * v + f)%Z]).
Proof.
  intros Hk Hlen Hip Hfp Hv Hf.
  assert (forallb is_digit (fp ++ ip) = true) as Hds
    by (rewrite forallb_app, Hip, Hfp; reflexivity).
  pose proof (respell_digit (fp ++ ip)) as Hd.
  specialize (fun x => Hd x Hds).
  pose proof (respell_other (fp ++ ip)) as Ho.
  assert (float (ip ++ 46%N :: fp) = Some (100 * v + f)%Z) as Hfloat.
  { apply float_of_digits; try assumption.
    destruct ip; [cbn in Hk; lia | discriminate]. }
  assert (lit "$" ++ ip ++ lit "." ++ fp
          = map (respell (fp ++ ip)) (price_shape (length ip))) as ->.
  { destruct fp as [|f1 [|f2 [|f3 fp]]]; try discriminate.
    destruct ip as [|a [|b [|c [|d [|e ip]]]]];
      cbn [length] in Hk; try lia; reflexivity. }
  destruct (length ip) as [|[|[|[|[|k]]]]] eqn:Hn; try lia.
  all: destruct fp as [|f1 [|f2 [|f3 fp]]]; try discriminate.
  all: destruct ip as [|a [|b [|c [|d [|e ip]]]]]; try discriminate.
  all: split; intros Hrange.
  all: first
    [ eapply (extract_respelled _ Hd Ho);
      [ exact first_price_pattern_blind | discriminate
      | vm_compute; reflexivity | vm_compute; reflexivity
      | vm_compute; reflexivity | exact Hfloat | exact Hrange ]
    | eapply (fallback_respelled _ Hd Ho);
      [ exact fallback_patterns_blind | vm_compute; reflexivity
      | exact Hfloat | exact Hrange ] ].
Qed.

(** A price of the range, rendered as a record field ([$D.DD]), is read
    back as the same price by the price extractor, and also by the
    patterns of the fallback when it lies strictly inside the range. *)
Theorem rendered_price_reads_back (p : price) :
  (500 <= p <= 200000)%Z ->
  extract_price_bulletproof (fmt_price p) = Some p
  /\ ((500 < p < 200000)%Z -> fallback_prices (fmt_price p) = [p]).
Proof.
  intros Hp.
  pose proof (Z.div_mod p 100 ltac:(lia)) as Hdm.
  pose proof (Z.mod_pos_bound p 100 ltac:(lia)) as Hm.
  assert (0 <= p / 100 <= 2000)%Z as Hd
    by (split; [apply Z.div_pos; lia | apply Z.div_le_upper_bound; lia]).
  destruct (digits_of_dollars (p / 100) Hd) as (Hk & Hip & Hv).
  destruct (digits_of_cents (p mod 100) Hm) as (Hlen & Hfp & Hf).
  destruct (shaped_price_reads_back _ _ _ _ Hk Hlen Hip Hfp Hv Hf)
    as [He Hfb].
  rewrite <- Hdm in He, Hfb.
  unfold fmt_price; split.
  - apply He; unfold in_range.
    apply andb_true_iff; rewrite !Z.leb_le; exact Hp.
  - intros Hin; apply Hfb.
    apply andb_true_iff; rewrite !Z.ltb_lt; exact Hin.
Qed.

Lemma rendered_price_reads_back_example :
  (500 <= 8999 <= 200000)%Z
  /\ fmt_price 8999 = lit "$89.99"
  /\ extract_price_bulletproof (fmt_price 8999) = Some 8999%Z.
Proof.
  assert (500 <= 8999 <= 200000)%Z as H by lia.
  split; [exact H|]; split; [vm_compute; reflexivity|].
  exact (proj1 (rendered_price_reads_back 8999%Z H)).
Defined.

(* ================================================================= *)
(** ** Promotional text without a number *)

Lemma search_needs_digit (ci : bool) (r : regex) (s : str) :
  needs_digit r -> no_digit s = true -> search ci r s = false.
Proof.
  intros Hr; unfold search; generalize (@None char) as p.
  induction s as [|c s IH]; intros p Hs; cbn [search_from];
    rewrite exec_needs_digit by assumption; [reflexivity|].
  apply IH; cbn in Hs; apply andb_true_iff in Hs; apply Hs.
Qed.

Lemma no_digit_lower (s : str) :
  no_digit s = true -> no_digit (lower s) = true.
Proof.
  unfold no_digit, lower; rewrite !forallb_forall.
  intros H x Hx; apply in_map_iff in Hx; destruct Hx as (c & <- & Hc).
  specialize (H c Hc); unfold to_lower, is_upper.
  destruct ((65 <=? c) && (c <=? 90))%N eqn:Hu; [|exact H].
  apply andb_true_iff in Hu; rewrite !N.leb_le in Hu.
  unfold is_digit; apply negb_true_iff, andb_false_iff.
  right; apply N.leb_gt; lia.
Qed.

(** An ASCII text without a digit is taken for promotional text only
    through the pattern [limited time]: every other promotional pattern
    asks for an amount. *)
Theorem promotional_text_without_digit (text : str) :
  is_ascii text = true ->
  no_digit text = true ->
  is_promotional_text text
  = match text with
    | [] => false
    | _ => search false limited_time_re (strip (lower text))
    end.
Proof.
  intros _ Ht; unfold is_promotional_text.
  destruct text as [|c text]; [reflexivity|].
  assert (no_digit (strip (lower (c :: text))) = true) as Hs
    by (apply no_digit_strip, no_digit_lower, Ht).
  assert (needs_digit (plus digit)) as Hd
    by (apply nd_rep; [lia | constructor; intros x H; exact H]).
  assert (forall l, Forall needs_digit l ->
            existsb (fun pattern =>
                       search false pattern (strip (lower (c :: text)))) l
            = false) as Hnone.
  { induction 1 as [|r l Hr _ IH]; [reflexivity|].
    cbn [existsb]; rewrite (search_needs_digit false r _ Hr Hs); exact IH. }
  change promo_regexes
    with (firstn 4 promo_regexes ++ limited_time_re :: skipn 5 promo_regexes).
  rewrite existsb_app; cbn [existsb].
  rewrite !Hnone; [rewrite orb_false_r; reflexivity | |];
    unfold promo_regexes; cbn [firstn skipn cat];
    repeat apply Forall_cons; try apply Forall_nil;
    first [ solve [apply nd_seq_l, Hd]
          | solve [apply nd_seq_r, nd_seq_l, Hd]
          | solve [apply nd_seq_r, nd_seq_r, nd_seq_r, Hd]
          | solve [apply nd_seq_r, nd_seq_r, nd_seq_r, nd_seq_l, Hd] ].
Qed.

Lemma promotional_text_without_digit_example :
  is_ascii (lit "Limited Time Offer") = true
  /\ no_digit (lit "Limited Time Offer") = true
  /\ is_promotional_text (lit "Limited Time Offer")
     = search false limited_time_re (strip (lower (lit "Limited Time Offer")))
  /\ is_promotional_text (lit "Limited Time Offer") = true.
Proof.
  assert (is_ascii (lit "Limited Time Offer") = true) as Ha
    by (vm_compute; reflexivity).
  assert (no_digit (lit "Limited Time Offer") = true) as H
    by (vm_compute; reflexivity).
  split; [exact Ha|]; split; [exact H|]; split;
    [exact (promotional_text_without_digit _ Ha H) | vm_compute; reflexivity].
Defined.
